(** * store_api: the product usecases, their session and the HTTP controllers

    A shallow embedding of [store/models/product.py],
    [store/usecases/product.py] and [store/controllers/product.py].

    The three Python modules talk to a relational table through an
    SQLAlchemy session, read the wall clock with [datetime.utcnow] and
    draw identifiers with [uuid.uuid4].  Here the table is a list of
    rows, the session is a list of attached objects addressed by
    handle, and the clock and the random source are two oracles of the
    world that are consumed one reading at a time. *)

From Stdlib Require Import ZArith NArith List String Ascii Bool Lia.
Import ListNotations.
Local Open Scope string_scope.

(** ** Text: case folding, LIKE patterns, substrings *)

(** SQL [lower] on the ASCII range. *)
Definition lower_ascii (c : ascii) : ascii :=
  let n := nat_of_ascii c in
  if (65 <=? n)%nat && (n <=? 90)%nat then ascii_of_nat (n + 32) else c.

Fixpoint lower (s : string) : string :=
  match s with
  | EmptyString => EmptyString
  | String c s' => String (lower_ascii c) (lower s')
  end.

(** The wildcard [%]: some suffix of [s] is matched by the rest of the
    pattern. *)
Fixpoint like_from (rest : string -> bool) (s : string) : bool :=
  rest s ||
  match s with
  | EmptyString => false
  | String _ s' => like_from rest s'
  end.

(** SQL [LIKE] without an ESCAPE clause: [%] stands for any run of
    characters, [_] for exactly one, every other character for itself. *)
Fixpoint like (pat : string) : string -> bool :=
  match pat with
  | EmptyString =>
      fun s => match s with EmptyString => true | String _ _ => false end
  | String c pat' =>
      if Ascii.eqb c "%" then like_from (like pat')
      else if Ascii.eqb c "_" then
        fun s => match s with
                 | EmptyString => false
                 | String _ s' => like pat' s'
                 end
      else
        fun s => match s with
                 | EmptyString => false
                 | String d s' => Ascii.eqb c d && like pat' s'
                 end
  end.

(** [column.ilike(pattern)]: [lower(column) LIKE lower(pattern)]. *)
Definition ilike (value pattern : string) : bool :=
  like (lower pattern) (lower value).

(** [needle] occurs in [hay] as a contiguous run. *)
Fixpoint contains (needle hay : string) : bool :=
  prefix needle hay ||
  match hay with
  | EmptyString => false
  | String _ hay' => contains needle hay'
  end.



(** Python truthiness of an [Optional[str]]: [None] and [""] are falsy. *)
Definition truthy (s : option string) : bool :=
  match s with
  | None => false
  | Some EmptyString => false
  | Some (String _ _) => true
  end.

(** ** Identifiers: [str(uuid.uuid4())] *)

Definition hex_digit (n : N) : ascii :=
  nth (N.to_nat n)
      ["0"; "1"; "2"; "3"; "4"; "5"; "6"; "7";
       "8"; "9"; "a"; "b"; "c"; "d"; "e"; "f"]%char "0"%char.

(** ['%0kx' % n], the low [k] hexadecimal digits of [n]. *)
Fixpoint hex (k : nat) (n : N) : string :=
  match k with
  | O => EmptyString
  | S k' => hex k' (n / 16) ++ String (hex_digit (n mod 16)) EmptyString
  end.

(** [uuid.uuid4()] on 16 random bytes read as an integer: the variant
    bits are set to RFC 4122 and the version nibble to 4. *)
Definition uuid4_of (random : N) : N :=
  let int := (random mod 2 ^ 128)%N in
  let int := N.ldiff int (N.shiftl 0xc000 48) in
  let int := N.lor int (N.shiftl 0x8000 48) in
  let int := N.ldiff int (N.shiftl 0xf000 64) in
  N.lor int (N.shiftl 4 76).

(** [str(uuid)]: 8-4-4-4-12. *)
Definition str_uuid (int : N) : string :=
  let h := hex 32 int in
  substring 0 8 h ++ "-" ++ substring 8 4 h ++ "-" ++ substring 12 4 h
    ++ "-" ++ substring 16 4 h ++ "-" ++ substring 20 12 h.

(** ** The entity and the schemas *)

(** [datetime] values as microseconds on the UTC time line. *)
Definition datetime := Z.

(** [Numeric(10, 2)]: a number of hundredths. *)
Definition Decimal := Z.

Definition option_eqb {A} (eqb : A -> A -> bool) (x y : option A) : bool :=
  match x, y with
  | None, None => true
  | Some a, Some b => eqb a b
  | _, _ => false
  end.

(** [store/models/product.py]: an instance of the mapped class.  The
    three columns with a [default] are [None] until the object has been
    flushed; the four [nullable=False] columns are always given by the
    callers of this file. *)
Module Product.
Record t := mk {
  id : option string;
  name : string;
  quantity : Z;
  price : Decimal;
  status : bool;
  created_at : option datetime;
  updated_at : option datetime
}.

Definition eqb (p q : t) : bool :=
  option_eqb String.eqb (id p) (id q)
  && String.eqb (name p) (name q)
  && Z.eqb (quantity p) (quantity q)
  && Z.eqb (price p) (price q)
  && Bool.eqb (status p) (status q)
  && option_eqb Z.eqb (created_at p) (created_at q)
  && option_eqb Z.eqb (updated_at p) (updated_at q).

Definition has_id (pk : string) (p : t) : bool :=
  option_eqb String.eqb (id p) (Some pk).

Definition same_id (p q : t) : bool :=
  option_eqb String.eqb (id p) (id q).

Definition set_name (v : string) (p : t) : t :=
  mk (id p) v (quantity p) (price p) (status p) (created_at p) (updated_at p).
Definition set_quantity (v : Z) (p : t) : t :=
  mk (id p) (name p) v (price p) (status p) (created_at p) (updated_at p).
Definition set_price (v : Decimal) (p : t) : t :=
  mk (id p) (name p) (quantity p) v (status p) (created_at p) (updated_at p).
Definition set_status (v : bool) (p : t) : t :=
  mk (id p) (name p) (quantity p) (price p) v (created_at p) (updated_at p).
Definition set_updated_at (v : option datetime) (p : t) : t :=
  mk (id p) (name p) (quantity p) (price p) (status p) (created_at p) v.

(** The attributes of the mapped class, as [Product.<attr>] finds them. *)
Inductive column :=
  c_id | c_name | c_quantity | c_price | c_status | c_created_at | c_updated_at.

Definition class_attr (attr : string) : option column :=
  if String.eqb attr "id" then Some c_id
  else if String.eqb attr "name" then Some c_name
  else if String.eqb attr "quantity" then Some c_quantity
  else if String.eqb attr "price" then Some c_price
  else if String.eqb attr "status" then Some c_status
  else if String.eqb attr "created_at" then Some c_created_at
  else if String.eqb attr "updated_at" then Some c_updated_at
  else None.

(** The value of a text column of a row; the other columns hold no
    text. *)
Definition text (c : column) (p : t) : option string :=
  match c with
  | c_id => id p
  | c_name => Some (name p)
  | _ => None
  end.
End Product.

(** The values a [Column(Integer)] takes on every store: a signed
    32-bit integer.  A wider value is refused by the driver or the
    store before any constraint is looked at, with an error that is
    not an [IntegrityError]; the statements below that promise an
    outcome for a payload keep its numbers within these ranges. *)
Definition fits_Integer (q : Z) : Prop := (- 2 ^ 31 <= q < 2 ^ 31)%Z.

(** The values of a [Numeric(10, 2)] column: ten digits, two of them
    after the point. *)
Definition fits_Numeric (p : Decimal) : Prop := (- 10 ^ 10 < p < 10 ^ 10)%Z.

(** Modelled from the spec: [store/schemas/product.py] is not among the
    sources.  The create payload carries the four caller-supplied
    fields (name, quantity, price, status). *)
Module ProductIn.
Record t := mk {
  name : string;
  quantity : Z;
  price : Decimal;
  status : bool
}.

(** The numbers of the payload fit their columns. *)
Definition storable (b : t) : Prop :=
  fits_Integer (quantity b) /\ fits_Numeric (price b).

(** A valid payload: non-empty name, non-negative quantity and price,
    both within the range of their columns. *)
Definition valid (b : t) : Prop :=
  name b <> EmptyString /\ (0 <= quantity b)%Z /\ (0 <= price b)%Z
  /\ storable b.
End ProductIn.

(** Modelled from the spec: [store/schemas/product.py] is not among the
    sources.  The update payload is any subset of the updatable fields,
    each one either present with a value or absent; a field sent as an
    explicit null is not a payload of this type. *)
Module ProductUpdate.
Record t := mk {
  name : option string;
  quantity : option Z;
  price : option Decimal;
  status : option bool
}.

(** The numbers present in the payload fit their columns. *)
Definition storable (b : t) : Prop :=
  (forall q, quantity b = Some q -> fits_Integer q)
  /\ (forall p, price b = Some p -> fits_Numeric p).

(** One entry of [body.dict(exclude_unset=True)]. *)
Inductive item :=
| i_name (v : string)
| i_quantity (v : Z)
| i_price (v : Decimal)
| i_status (v : bool).

Definition entry {A} (k : A -> item) (v : option A) : list item :=
  match v with
  | Some a => [k a]
  | None => []
  end.

(** [body.dict(exclude_unset=True).items()], in field order. *)
Definition dict_exclude_unset (b : t) : list item :=
  (entry i_name (name b) ++ entry i_quantity (quantity b)
     ++ entry i_price (price b) ++ entry i_status (status b))%list.
End ProductUpdate.

(** Modelled from the spec: [store/schemas/product.py] is not among the
    sources.  The representation that is returned carries id, name,
    quantity, price, status, created_at and updated_at, read off the
    attributes of the instance. *)
Module ProductOut.
Record t := mk {
  id : option string;
  name : string;
  quantity : Z;
  price : Decimal;
  status : bool;
  created_at : option datetime;
  updated_at : option datetime
}.

Definition from_orm (p : Product.t) : t :=
  mk (Product.id p) (Product.name p) (Product.quantity p) (Product.price p)
     (Product.status p) (Product.created_at p) (Product.updated_at p).
End ProductOut.

(** Modelled from the spec: [store/schemas/product.py] is not among the
    sources.  The representation returned by an update has the same
    seven fields. *)
Module ProductUpdateOut.
Record t := mk {
  id : option string;
  name : string;
  quantity : Z;
  price : Decimal;
  status : bool;
  created_at : option datetime;
  updated_at : option datetime
}.

Definition from_orm (p : Product.t) : t :=
  mk (Product.id p) (Product.name p) (Product.quantity p) (Product.price p)
     (Product.status p) (Product.created_at p) (Product.updated_at p).
End ProductUpdateOut.

(** ** The world: table, session, clock and random source *)

(** An object attached to the session: its current attributes, the row
    it was loaded from ([None] while it is pending, in [session.new])
    and whether [session.delete] has marked it. *)
Record instance := mk_instance {
  attrs : Product.t;
  committed : option Product.t;
  deleted : bool
}.

Record World := mk_world {
  table : list Product.t;      (* the rows of "products", oldest first *)
  session : list instance;     (* attached objects; a handle is a position *)
  tick : nat;                  (* readings of the clock taken so far *)
  draws : nat;                 (* identifiers drawn so far *)
  clock : nat -> datetime;     (* the n-th reading of datetime.utcnow *)
  entropy : nat -> N           (* the n-th draw of 16 random bytes *)
}.

Definition with_table (rows : list Product.t) (w : World) : World :=
  mk_world rows (session w) (tick w) (draws w) (clock w) (entropy w).

Definition with_session (s : list instance) (w : World) : World :=
  mk_world (table w) s (tick w) (draws w) (clock w) (entropy w).

(** Modelled from the spec: [store/core/exceptions.py] is not among the
    sources.  [NotFoundException] carries the message it was raised
    with, which the controllers read back as [exc.message].  The other
    constructors are SQLAlchemy's [IntegrityError] with the driver's
    text in [orig], its [InvalidRequestError], Python's
    [AttributeError] and FastAPI's [HTTPException]. *)
Inductive exn :=
| NotFoundException (message : string)
| IntegrityError (orig : string)
| InvalidRequestError (msg : string)
| AttributeError (msg : string)
| HTTPException (status_code : nat) (detail : string).

Inductive Outcome (A : Type) :=
| Ok (a : A)
| Raise (e : exn).
Arguments Ok {A} a.
Arguments Raise {A} e.

(** Computations that read and change the world and may raise. *)
Definition M (A : Type) : Type := World -> Outcome A * World.

Definition ret {A} (a : A) : M A := fun w => (Ok a, w).

Definition raise {A} (e : exn) : M A := fun w => (Raise e, w).

Definition bind {A B} (m : M A) (k : A -> M B) : M B :=
  fun w =>
    match m w with
    | (Ok a, w') => k a w'
    | (Raise e, w') => (Raise e, w')
    end.

Notation "x <- m ;; k" := (bind m (fun x => k))
  (at level 61, m at next level, right associativity).
Notation "m ;; k" := (bind m (fun _ => k))
  (at level 61, right associativity).

(** [try: m  except E as exc: h exc], for the class of exceptions that
    [catches] accepts. *)
Definition try_except {A} (m : M A) (catches : exn -> bool) (h : exn -> M A)
  : M A :=
  fun w =>
    match m w with
    | (Ok a, w') => (Ok a, w')
    | (Raise e, w') => if catches e then h e w' else (Raise e, w')
    end.

Definition is_IntegrityError (e : exn) : bool :=
  match e with IntegrityError _ => true | _ => false end.

Definition is_NotFoundException (e : exn) : bool :=
  match e with NotFoundException _ => true | _ => false end.

Fixpoint for_each {A} (xs : list A) (body : A -> M unit) : M unit :=
  match xs with
  | [] => ret tt
  | x :: xs' => body x ;; for_each xs' body
  end.

(** [datetime.utcnow()]: the next reading of the clock. *)
Definition utcnow : M datetime :=
  fun w =>
    (Ok (clock w (tick w)),
     mk_world (table w) (session w) (S (tick w)) (draws w) (clock w) (entropy w)).

(** [str(uuid.uuid4())] on the next draw of random bytes. *)
Definition new_uuid : M string :=
  fun w =>
    (Ok (str_uuid (uuid4_of (entropy w (draws w)))),
     mk_world (table w) (session w) (tick w) (S (draws w)) (clock w) (entropy w)).

(** ** The session *)

Definition handle := nat.

Fixpoint replace_nth {A} (n : nat) (x : A) (l : list A) : list A :=
  match l, n with
  | [], _ => []
  | _ :: l', O => x :: l'
  | y :: l', S n' => y :: replace_nth n' x l'
  end.

(** [session.add(obj)]: the object becomes pending. *)
Definition session_add (p : Product.t) : M handle :=
  fun w =>
    (Ok (List.length (session w)),
     with_session (session w ++ [mk_instance p None false])%list w).

(** [session.get(Product, pk)]: the row with that primary key, attached
    to the session, or [None].  Every request has a session of its own,
    so the row is read from the table. *)
Definition session_get (pk : string) : M (option handle) :=
  fun w =>
    match find (Product.has_id pk) (table w) with
    | Some row =>
        (Ok (Some (List.length (session w))),
         with_session (session w ++ [mk_instance row (Some row) false])%list w)
    | None => (Ok None, w)
    end.

(** Reading the attributes of an attached object. *)
Definition getattrs (h : handle) : M Product.t :=
  fun w =>
    match nth_error (session w) h with
    | Some i => (Ok (attrs i), w)
    | None => (Raise (InvalidRequestError "instance is not attached"), w)
    end.

(** Assigning attributes of an attached object. *)
Definition modify (h : handle) (f : Product.t -> Product.t) : M unit :=
  fun w =>
    match nth_error (session w) h with
    | Some i =>
        (Ok tt,
         with_session
           (replace_nth h (mk_instance (f (attrs i)) (committed i) (deleted i))
                        (session w)) w)
    | None => (Raise (InvalidRequestError "instance is not attached"), w)
    end.

(** [setattr(product, key, value)] for one entry of the update dict. *)
Definition setattr (h : handle) (kv : ProductUpdate.item) : M unit :=
  match kv with
  | ProductUpdate.i_name v => modify h (Product.set_name v)
  | ProductUpdate.i_quantity v => modify h (Product.set_quantity v)
  | ProductUpdate.i_price v => modify h (Product.set_price v)
  | ProductUpdate.i_status v => modify h (Product.set_status v)
  end.

(** [session.delete(obj)]: the object is marked for deletion. *)
Definition session_delete (h : handle) : M unit :=
  fun w =>
    match nth_error (session w) h with
    | Some i =>
        (Ok tt,
         with_session
           (replace_nth h (mk_instance (attrs i) (committed i) true)
                        (session w)) w)
    | None => (Raise (InvalidRequestError "instance is not attached"), w)
    end.

(** A column [default]: evaluated at INSERT when the attribute is unset. *)
Definition default {A} (v : option A) (d : M A) : M A :=
  match v with
  | Some a => ret a
  | None => d
  end.

(** The INSERT of a pending object into [rows].  The defaults are
    evaluated column by column, in the order of the table: [id],
    [created_at], [updated_at]; each timestamp default is a call of its
    own to [datetime.utcnow].  The primary key and the [unique=True]
    constraint on [name] are then checked by the store.  The numbers of
    the row are taken within the range of their columns
    ([fits_Integer], [fits_Numeric]); what the driver does with a wider
    one happens before this check and is outside this model. *)
Definition insert (p : Product.t) (rows : list Product.t)
  : M (list Product.t * Product.t) :=
  pk <- default (Product.id p) new_uuid ;;
  c <- default (Product.created_at p) utcnow ;;
  u <- default (Product.updated_at p) utcnow ;;
  let row := Product.mk (Some pk) (Product.name p) (Product.quantity p)
               (Product.price p) (Product.status p) (Some c) (Some u) in
  if existsb (Product.has_id pk) rows then
    raise (IntegrityError "UNIQUE constraint failed: products.id")
  else if existsb (fun r => String.eqb (Product.name r) (Product.name p)) rows
  then raise (IntegrityError "UNIQUE constraint failed: products.name")
  else ret ((rows ++ [row])%list, row).

(** Some row other than [old] holds the name [n]. *)
Definition others_named (n : string) (old : Product.t) (rows : list Product.t)
  : bool :=
  existsb (fun r => negb (Product.same_id r old)
                    && String.eqb (Product.name r) n) rows.

(** The UPDATE of a persistent object loaded as [old].  Only changed
    attributes enter the SET clause; [updated_at] has
    [onupdate=datetime.utcnow], which fires when the SET clause does not
    mention that column.  An unchanged object emits no statement.  The
    store checks [unique=True] when the SET clause changes [name].  As
    for the INSERT, the numbers are taken within the range of their
    columns. *)
Definition update_row (new old : Product.t) (rows : list Product.t)
  : M (list Product.t * Product.t) :=
  if Product.eqb new old then ret (rows, old)
  else
    new <- (if option_eqb Z.eqb (Product.updated_at new) (Product.updated_at old)
            then (t <- utcnow ;; ret (Product.set_updated_at (Some t) new))
            else ret new) ;;
    if negb (String.eqb (Product.name new) (Product.name old))
       && others_named (Product.name new) old rows
    then raise (IntegrityError "UNIQUE constraint failed: products.name")
    else ret (map (fun r => if Product.same_id r old then new else r) rows, new).

(** The flush of the attached objects over a working copy of the table:
    pending objects are inserted, deleted ones removed by primary key,
    modified ones updated.  The usecases attach one object per
    request. *)
Fixpoint flush (objs : list instance) (rows : list Product.t)
  : M (list Product.t * list instance) :=
  match objs with
  | [] => ret (rows, [])
  | i :: objs' =>
      r <- match committed i with
           | None =>
               x <- insert (attrs i) rows ;;
               ret (fst x, [mk_instance (snd x) (Some (snd x)) false])
           | Some old =>
               if deleted i then
                 ret (filter (fun r => negb (Product.same_id r old)) rows, [])
               else
                 x <- update_row (attrs i) old rows ;;
                 ret (fst x, [mk_instance (snd x) (Some (snd x)) false])
           end ;;
      r' <- flush objs' (fst r) ;;
      ret (fst r', (snd r ++ snd r')%list)
  end.

(** [session.commit()]: flush, then make the working copy the table.
    When the flush raises, the table is as it was and the session keeps
    its objects until [rollback]. *)
Definition session_commit : M unit :=
  fun w =>
    match flush (session w) (table w) w with
    | (Ok (rows, objs), w') => (Ok tt, with_table rows (with_session objs w'))
    | (Raise e, w') => (Raise e, w')
    end.

(** [session.rollback()]: pending objects are expunged, the others go
    back to the state they were loaded in. *)
Definition session_rollback : M unit :=
  fun w =>
    (Ok tt,
     with_session
       (flat_map (fun i => match committed i with
                           | None => []
                           | Some old => [mk_instance old (Some old) false]
                           end) (session w)) w).

(** [session.refresh(obj)]: the attributes are read again from the row
    with the object's primary key. *)
Definition session_refresh (h : handle) : M unit :=
  fun w =>
    match nth_error (session w) h with
    | Some (mk_instance _ (Some old) _) =>
        match find (Product.same_id old) (table w) with
        | Some row =>
            (Ok tt,
             with_session
               (replace_nth h (mk_instance row (Some row) false) (session w)) w)
        | None =>
            (Raise (InvalidRequestError "could not refresh instance"), w)
        end
    | _ => (Raise (InvalidRequestError "instance is not persistent"), w)
    end.

(** A SELECT over the mapped class: the conjunction of its WHERE
    criteria. *)
Definition Select := list (Product.t -> bool).

Definition select_Product : Select := [].

Definition where_ (stmt : Select) (criterion : Product.t -> bool) : Select :=
  (stmt ++ [criterion])%list.

(** [<column>.ilike(pattern)] as a criterion; a NULL is not selected. *)
Definition column_ilike (c : Product.column) (pattern : string)
  : Product.t -> bool :=
  fun row =>
    match Product.text c row with
    | Some v => ilike v pattern
    | None => false
    end.

(** [Product.<attr>] on the mapped class. *)
Definition Product_getattr (attr : string) : M Product.column :=
  match Product.class_attr attr with
  | Some c => ret c
  | None =>
      raise (AttributeError
               ("type object 'Product' has no attribute '" ++ attr ++ "'"))
  end.

(** [session.execute(stmt)] followed by [.scalars().all()]: the rows
    that satisfy every criterion, in table order. *)
Definition session_execute (stmt : Select) : M (list Product.t) :=
  fun w => (Ok (filter (fun r => forallb (fun c => c r) stmt) (table w)), w).

(** ** [store/usecases/product.py] *)

(** The constructor call on the keyword arguments [body.dict()]: the
    four fields of the payload; [id] and the timestamps are left to the
    column defaults. *)
Definition Product_of_dict (body : ProductIn.t) : Product.t :=
  Product.mk None (ProductIn.name body) (ProductIn.quantity body)
             (ProductIn.price body) (ProductIn.status body) None None.

Definition not_found_message (id : string) : string :=
  "Produto com id " ++ id ++ " não encontrado".

Module ProductUsecase.

Definition create (body : ProductIn.t) : M ProductOut.t :=
  product <- session_add (Product_of_dict body) ;;
  try_except
    (session_commit ;;
     session_refresh product ;;
     p <- getattrs product ;;
     ret (ProductOut.from_orm p))
    is_IntegrityError
    (fun exc => session_rollback ;; raise exc).

Definition get (id : string) : M ProductOut.t :=
  result <- session_get id ;;
  match result with
  | None => raise (NotFoundException (not_found_message id))
  | Some result =>
      p <- getattrs result ;;
      ret (ProductOut.from_orm p)
  end.

Definition query (name category : option string) : M (list ProductOut.t) :=
  let stmt := select_Product in
  stmt <- (if truthy name then
             c <- Product_getattr "name" ;;
             ret (where_ stmt
                    (column_ilike c ("%" ++ match name with
                                            | Some n => n
                                            | None => EmptyString
                                            end ++ "%")))
           else ret stmt) ;;
  stmt <- (if truthy category then
             c <- Product_getattr "category" ;;
             ret (where_ stmt
                    (column_ilike c ("%" ++ match category with
                                            | Some n => n
                                            | None => EmptyString
                                            end ++ "%")))
           else ret stmt) ;;
  products <- session_execute stmt ;;
  ret (map ProductOut.from_orm products).

Definition update (id : string) (body : ProductUpdate.t)
  : M ProductUpdateOut.t :=
  product <- session_get id ;;
  match product with
  | None => raise (NotFoundException (not_found_message id))
  | Some product =>
      for_each (ProductUpdate.dict_exclude_unset body) (setattr product) ;;
      now <- utcnow ;;
      modify product (Product.set_updated_at (Some now)) ;;
      try_except
        (session_commit ;;
         session_refresh product ;;
         p <- getattrs product ;;
         ret (ProductUpdateOut.from_orm p))
        is_IntegrityError
        (fun exc => session_rollback ;; raise exc)
  end.

Definition delete (id : string) : M unit :=
  product <- session_get id ;;
  match product with
  | None => raise (NotFoundException (not_found_message id))
  | Some product =>
      session_delete product ;;
      session_commit
  end.

End ProductUsecase.

(** ** [store/controllers/product.py] *)

(** The handlers are embedded with the path parameter [id] in its
    string form, the type the usecase declares for it; what the
    session does with the [UUID4] object that the framework hands over
    is not part of these definitions. *)

Definition HTTP_200_OK : nat := 200.
Definition HTTP_201_CREATED : nat := 201.
Definition HTTP_204_NO_CONTENT : nat := 204.
Definition HTTP_400_BAD_REQUEST : nat := 400.
Definition HTTP_404_NOT_FOUND : nat := 404.
Definition HTTP_500_INTERNAL_SERVER_ERROR : nat := 500.

Module controllers.

Definition integrity_detail (exc : exn) : string :=
  "Erro de integridade: " ++ match exc with
                             | IntegrityError orig => orig
                             | _ => EmptyString
                             end.

Definition message (exc : exn) : string :=
  match exc with
  | NotFoundException m => m
  | _ => EmptyString
  end.

Definition post (body : ProductIn.t) : M ProductOut.t :=
  try_except (ProductUsecase.create body)
    is_IntegrityError
    (fun exc => raise (HTTPException HTTP_400_BAD_REQUEST
                                     (integrity_detail exc))).

Definition get (id : string) : M ProductOut.t :=
  try_except (ProductUsecase.get id)
    is_NotFoundException
    (fun exc => raise (HTTPException HTTP_404_NOT_FOUND (message exc))).

Definition query (name category : option string) : M (list ProductOut.t) :=
  ProductUsecase.query name category.

Definition patch (id : string) (body : ProductUpdate.t)
  : M ProductUpdateOut.t :=
  try_except
    (try_except (ProductUsecase.update id body)
       is_NotFoundException
       (fun exc => raise (HTTPException HTTP_404_NOT_FOUND (message exc))))
    is_IntegrityError
    (fun exc => raise (HTTPException HTTP_400_BAD_REQUEST
                                     (integrity_detail exc))).

Definition delete (id : string) : M unit :=
  try_except (ProductUsecase.delete id)
    is_NotFoundException
    (fun exc => raise (HTTPException HTTP_404_NOT_FOUND (message exc))).

End controllers.

(** The body of a response. *)
Inductive content :=
| product_json (p : ProductOut.t)
| products_json (ps : list ProductOut.t)
| updated_json (p : ProductUpdateOut.t)
| detail_json (detail : string)
| empty_body
| server_error.

Record Response := mk_response {
  status_code : nat;
  body : content
}.

Inductive Request :=
| POST (body : ProductIn.t)
| GET (id : string)
| GET_list (name category : option string)
| PATCH (id : string) (body : ProductUpdate.t)
| DELETE (id : string).

(** What the framework makes of a handler: its value under the status
    code of the route, an [HTTPException] under its own status code with
    its detail, any other exception as a 500. *)
Definition respond {A} (success : nat) (render : A -> content) (handler : M A)
  : World -> Response * World :=
  fun w =>
    match handler w with
    | (Ok a, w') => (mk_response success (render a), w')
    | (Raise (HTTPException code detail), w') =>
        (mk_response code (detail_json detail), w')
    | (Raise _, w') =>
        (mk_response HTTP_500_INTERNAL_SERVER_ERROR server_error, w')
    end.

(** The routes of [router], each with the [status_code] of its
    decorator. *)
Definition route (r : Request) : World -> Response * World :=
  match r with
  | POST body =>
      respond HTTP_201_CREATED product_json (controllers.post body)
  | GET id =>
      respond HTTP_200_OK product_json (controllers.get id)
  | GET_list name category =>
      respond HTTP_200_OK products_json (controllers.query name category)
  | PATCH id body =>
      respond HTTP_200_OK updated_json (controllers.patch id body)
  | DELETE id =>
      respond HTTP_204_NO_CONTENT (fun _ : unit => empty_body)
              (controllers.delete id)
  end.

(** ** Notions used in the statements *)

(** A product with primary key [pk] is stored. *)
Definition stored (pk : string) (w : World) : Prop :=
  exists p, In p (table w) /\ Product.id p = Some pk.

(** A rendering of the partial-update semantics in the words of the
    specification: a field present in the payload replaces the
    attribute, an omitted one leaves it untouched. *)
Definition patched (body : ProductUpdate.t) (p : Product.t) : Product.t :=
  Product.mk (Product.id p)
    (match ProductUpdate.name body with Some v => v | None => Product.name p end)
    (match ProductUpdate.quantity body with
     | Some v => v | None => Product.quantity p end)
    (match ProductUpdate.price body with Some v => v | None => Product.price p end)
    (match ProductUpdate.status body with
     | Some v => v | None => Product.status p end)
    (Product.created_at p) (Product.updated_at p).

(** The assignments of the update loop, one entry at a time. *)
Definition assign (p : Product.t) (kv : ProductUpdate.item) : Product.t :=
  match kv with
  | ProductUpdate.i_name v => Product.set_name v p
  | ProductUpdate.i_quantity v => Product.set_quantity v p
  | ProductUpdate.i_price v => Product.set_price v p
  | ProductUpdate.i_status v => Product.set_status v p
  end.

(** The writing operations of the usecase. *)
Inductive operation :=
| op_create (body : ProductIn.t)
| op_update (id : string) (body : ProductUpdate.t)
| op_delete (id : string).

(** The world after one writing operation carried out in a session of
    its own, whether it returned or raised. *)
Definition run (o : operation) (w : World) : World :=
  with_session []
    (match o with
     | op_create body => snd (ProductUsecase.create body (with_session [] w))
     | op_update id body => snd (ProductUsecase.update id body (with_session [] w))
     | op_delete id => snd (ProductUsecase.delete id (with_session [] w))
     end).

(** The worlds reached from [w0] by any sequence of create, update and
    delete. *)
Inductive reachable (w0 : World) : World -> Prop :=
| reach_start : reachable w0 w0
| reach_step : forall w o, reachable w0 w -> reachable w0 (run o w).

(** A clock that never runs backwards. *)
Definition monotone (c : nat -> datetime) : Prop :=
  forall i j, (i <= j)%nat -> (c i <= c j)%Z.

(** The timestamps of a row are in order. *)
Definition timestamps_ordered (p : Product.t) : Prop :=
  exists c u, Product.created_at p = Some c /\ Product.updated_at p = Some u
              /\ (c <= u)%Z.

(** The identifier, the row and the world that create arrives at. *)
Definition created_id (w : World) : string :=
  str_uuid (uuid4_of (entropy w (draws w))).

Definition created_row (body : ProductIn.t) (w : World) : Product.t :=
  Product.mk (Some (created_id w)) (ProductIn.name body)
    (ProductIn.quantity body) (ProductIn.price body) (ProductIn.status body)
    (Some (clock w (tick w))) (Some (clock w (S (tick w)))).

(** What one writing operation may do to the table of [w]: nothing,
    append a row under a new primary key with two successive readings
    of the clock as its timestamps, replace the row under a primary key
    by one with the same key and [created_at] and a later reading as
    [updated_at], or remove the rows under a primary key. *)
Inductive effect (w : World) : operation -> list Product.t -> Prop :=
| effect_none : forall o, effect w o (table w)
| effect_insert : forall body row pk,
    Product.id row = Some pk ->
    ~ stored pk w ->
    Product.created_at row = Some (clock w (tick w)) ->
    Product.updated_at row = Some (clock w (S (tick w))) ->
    effect w (op_create body) (table w ++ [row])
| effect_update : forall pk body old new k,
    In old (table w) ->
    Product.id old = Some pk ->
    Product.id new = Some pk ->
    Product.created_at new = Product.created_at old ->
    Product.updated_at new = Some (clock w k) ->
    (tick w <= k)%nat ->
    effect w (op_update pk body)
           (map (fun r => if Product.has_id pk r then new else r) (table w))
| effect_delete : forall pk,
    effect w (op_delete pk)
           (filter (fun r => negb (Product.has_id pk r)) (table w)).

(** The state invariant: primary keys are distinct, and every row has
    its timestamps in order, with a [created_at] that is not ahead of
    the clock. *)
Definition invariant (w : World) : Prop :=
  NoDup (map Product.id (table w))
  /\ forall p, In p (table w) ->
               exists pk c u,
                 Product.id p = Some pk
                 /\ Product.created_at p = Some c
                 /\ Product.updated_at p = Some u
                 /\ (c <= u)%Z /\ (c <= clock w (tick w))%Z.

(** The name that the update assigns is held by another product. *)
Definition renames_to_taken (pk : string) (body : ProductUpdate.t)
           (old : Product.t) (w : World) : Prop :=
  exists n r, ProductUpdate.name body = Some n /\ n <> Product.name old
              /\ In r (table w) /\ Product.id r <> Some pk
              /\ Product.name r = n.

(** Primary keys are distinct identifiers of 36 characters and names
    are distinct. *)
Definition keys_unique (w : World) : Prop :=
  NoDup (map Product.id (table w))
  /\ NoDup (map Product.name (table w))
  /\ forall p, In p (table w) ->
               exists pk, Product.id p = Some pk /\ String.length pk = 36%nat.

(** ** Sample worlds *)

Definition sample_clock : nat -> datetime := fun n => (1000 + Z.of_nat n)%Z.

Definition sample_entropy : nat -> N :=
  fun n => (N.of_nat n * 7919 + 12345678901234)%N.

Definition empty_world : World :=
  mk_world [] [] 0 0 sample_clock sample_entropy.

Definition widget : ProductIn.t := ProductIn.mk "Widget" 10 999%Z true.

Definition widget_id : string := "00000000-0000-4000-8000-0b3a73ce2ff2".

Definition widget_row : Product.t :=
  Product.mk (Some widget_id) "Widget" 10 999%Z true (Some 1000%Z) (Some 1001%Z).

(** The store after [widget] has been created in [empty_world]. *)
Definition widget_world : World :=
  mk_world [widget_row] [] 2 1 sample_clock sample_entropy.

Definition gadget : ProductIn.t := ProductIn.mk "Gadget" 3 2500%Z false.

Definition gadget_id : string := "00000000-0000-4000-8000-0b3a73ce4ee1".

Definition gadget_row : Product.t :=
  Product.mk (Some gadget_id) "Gadget" 3 2500%Z false (Some 1002%Z) (Some 1003%Z).

(** The store after [gadget] has been created in [widget_world]. *)
Definition two_world : World :=
  mk_world [widget_row; gadget_row] [] 4 2 sample_clock sample_entropy.

(** The store of [widget_world] under a clock that has not moved on
    since the last write. *)
Definition stalled_world : World :=
  mk_world [widget_row] [] 2 1 (fun _ => 1001%Z) sample_entropy.

(** An empty store under a clock that runs backwards. *)
Definition backward_world : World :=
  mk_world [] [] 0 0 (fun n => (1000 - Z.of_nat n)%Z) sample_entropy.

(** One step of a computation on an explicit world. *)
Ltac world_step :=
  unfold ret, with_table, with_session;
  cbn [fst snd app table session tick draws clock entropy nth_error
       replace_nth attrs committed deleted List.length].

(** Two payloads, and the worlds right after [quantity_5] and then
    [rename_thing] have been applied to the widget of [two_world]. *)
Definition quantity_5 : ProductUpdate.t :=
  ProductUpdate.mk None (Some 5%Z) None None.

Definition rename_thing : ProductUpdate.t :=
  ProductUpdate.mk (Some "Thing") None None None.

Definition widget5_row : Product.t :=
  Product.mk (Some widget_id) "Widget" 5 999%Z true (Some 1000%Z) (Some 1004%Z).

Definition widget5_world : World :=
  mk_world [widget5_row; gadget_row]
           [mk_instance widget5_row (Some widget5_row) false]
           5 2 sample_clock sample_entropy.

Definition thing_row : Product.t :=
  Product.mk (Some widget_id) "Thing" 5 999%Z true (Some 1000%Z) (Some 1005%Z).

Definition thing_world : World :=
  mk_world [thing_row; gadget_row]
           [mk_instance thing_row (Some thing_row) false]
           6 2 sample_clock sample_entropy.

(** ** Text lemmas *)

Lemma lower_append (a b : string) : lower (a ++ b) = lower a ++ lower b.
Proof.
  induction a as [|c a IH]; simpl; [reflexivity | now rewrite IH].
Qed.










(** ** Identifier lemmas *)

Lemma length_append (a b : string) :
  String.length (a ++ b) = (String.length a + String.length b)%nat.
Proof.
  induction a as [|c a IH]; simpl; [reflexivity | now rewrite IH].
Qed.

Lemma length_hex (k : nat) (n : N) : String.length (hex k n) = k.
Proof.
  revert n. induction k as [|k IH]; intros n; simpl; [reflexivity|].
  rewrite length_append, IH. simpl. lia.
Qed.

Lemma length_substring (s : string) (a b : nat) :
  (a + b <= String.length s)%nat -> String.length (substring a b s) = b.
Proof.
  revert a b. induction s as [|c s IH]; intros a b H; simpl in H.
  - assert (a = 0%nat) by lia. assert (b = 0%nat) by lia. subst. reflexivity.
  - destruct a as [|a].
    + destruct b as [|b]; simpl; [reflexivity|].
      f_equal. apply IH. simpl. lia.
    + simpl. apply IH. lia.
Qed.

Lemma length_str_uuid (u : N) : String.length (str_uuid u) = 36%nat.
Proof.
  unfold str_uuid.
  rewrite !length_append, !length_substring by (rewrite length_hex; lia).
  reflexivity.
Qed.

Lemma str_uuid_nonempty (u : N) : str_uuid u <> EmptyString.
Proof.
  intros H. pose proof (length_str_uuid u) as L. rewrite H in L. discriminate L.
Qed.

(** ** The sample worlds are what the usecases produce *)

Example create_widget : run (op_create widget) empty_world = widget_world.
Proof. reflexivity. Qed.

Example create_gadget : run (op_create gadget) widget_world = two_world.
Proof. reflexivity. Qed.

(** The pattern characters at work. *)
Example like_wildcards :
  like "%idg%" "widget" = true /\ like "w_d%" "widget" = true
  /\ like "w_d" "widget" = false /\ ilike "Widget" "%WID%" = true
  /\ contains "w_d" "widget" = false.
Proof. vm_compute. repeat split. Qed.

(** ** query *)

Lemma filter_all {A} (f : A -> bool) (l : list A) :
  (forall x, In x l -> f x = true) -> filter f l = l.
Proof.
  induction l as [|a l IH]; intros H; simpl; [reflexivity|].
  rewrite (H a (or_introl eq_refl)), IH; [reflexivity|].
  intros x Hx. apply H. now right.
Qed.

Lemma query_unfiltered (w : World) :
  ProductUsecase.query None None w
  = (Ok (map ProductOut.from_orm (table w)), w).
Proof.
  unfold ProductUsecase.query, bind, ret, session_execute. simpl.
  now rewrite filter_all.
Qed.

Lemma query_by_name (c : ascii) (cs : string) (w : World) :
  ProductUsecase.query (Some (String c cs)) None w
  = (Ok (map ProductOut.from_orm
           (filter (fun r => ilike (Product.name r) ("%" ++ String c cs ++ "%"))
                   (table w))), w).
Proof.
  unfold ProductUsecase.query, bind, ret, session_execute. simpl.
  do 3 f_equal. apply filter_ext. intros r.
  unfold column_ilike. simpl. apply andb_true_r.
Qed.

Lemma query_category_unset (name : option string) (w : World) :
  ProductUsecase.query name (Some EmptyString) w
  = ProductUsecase.query name None w.
Proof. reflexivity. Qed.

Lemma query_name_unset (category : option string) (w : World) :
  ProductUsecase.query (Some EmptyString) category w
  = ProductUsecase.query None category w.
Proof. reflexivity. Qed.

Lemma query_name_returns (name : option string) (w : World) :
  exists rows,
    ProductUsecase.query name None w = (Ok (map ProductOut.from_orm rows), w)
    /\ incl rows (table w).
Proof.
  destruct name as [[|c cs]|].
  - rewrite query_name_unset, query_unfiltered. eexists. split; [reflexivity|].
    apply incl_refl.
  - rewrite query_by_name. eexists. split; [reflexivity|].
    intros r Hr. now apply filter_In in Hr.
  - rewrite query_unfiltered. eexists. split; [reflexivity|]. apply incl_refl.
Qed.

(** C4: a non-empty category filter never returns: [Product.category]
    does not exist, so building the criterion raises [AttributeError]
    before any row is read, whatever the name filter and the store. *)
Theorem query_category_raises :
  forall (name : option string) (c : ascii) (cs : string) (w : World),
    ProductUsecase.query name (Some (String c cs)) w
    = (Raise (AttributeError
                "type object 'Product' has no attribute 'category'"), w).
Proof.
  intros name c cs w.
  destruct name as [[|d ds]|]; reflexivity.
Qed.


(** The name filter is a LIKE pattern: what query returns in general. *)
Lemma query_name_like (n : string) (w : World) :
  n <> EmptyString ->
  ProductUsecase.query (Some n) None w
  = (Ok (map ProductOut.from_orm
           (filter (fun p => like ("%" ++ lower n ++ "%") (lower (Product.name p)))
                   (table w))), w).
Proof.
  intros Hn. destruct n as [|c cs]; [now elim Hn|].
  rewrite query_by_name. do 3 f_equal. apply filter_ext. intros r.
  unfold ilike. now rewrite !lower_append.
Qed.



(** An empty-string filter is the same call as an absent filter, for
    the name and for the category; with an empty category the call
    returns exactly the rows that the name filter selects, with both
    filters empty it returns every product, through the usecase and
    through the route. *)
Lemma query_empty_filter :
  forall (n c : option string) (w : World),
    ProductUsecase.query (Some EmptyString) c w = ProductUsecase.query None c w
    /\ ProductUsecase.query n (Some EmptyString) w = ProductUsecase.query n None w
    /\ (forall a s,
          ProductUsecase.query (Some (String a s)) (Some EmptyString) w
          = (Ok (map ProductOut.from_orm
                   (filter (fun r => ilike (Product.name r)
                                           ("%" ++ String a s ++ "%"))
                           (table w))), w))
    /\ ProductUsecase.query (Some EmptyString) (Some EmptyString) w
       = (Ok (map ProductOut.from_orm (table w)), w)
    /\ ProductUsecase.query (Some EmptyString) None w
       = (Ok (map ProductOut.from_orm (table w)), w)
    /\ ProductUsecase.query None (Some EmptyString) w
       = (Ok (map ProductOut.from_orm (table w)), w)
    /\ route (GET_list (Some EmptyString) (Some EmptyString)) w
       = (mk_response HTTP_200_OK
            (products_json (map ProductOut.from_orm (table w))), w).
Proof.
  intros n c w.
  split; [apply query_name_unset|].
  split; [apply query_category_unset|].
  split; [intros a s; rewrite query_category_unset; apply query_by_name|].
  assert (H : ProductUsecase.query (Some EmptyString) (Some EmptyString) w
              = (Ok (map ProductOut.from_orm (table w)), w))
    by (rewrite query_name_unset, query_category_unset; apply query_unfiltered).
  split; [exact H|].
  split; [rewrite query_name_unset; apply query_unfiltered|].
  split; [rewrite query_category_unset; apply query_unfiltered|].
  unfold route, respond, controllers.query. now rewrite H.
Qed.

(** C10: the call with an empty-string name filter and a non-empty
    category filter does not return: as with the name filter absent,
    [Product.category] is looked up and raises [AttributeError]; the
    same call without the category filter returns every product. *)
Theorem query_empty_name_raises :
  forall (c : ascii) (cs : string) (w : World),
    ProductUsecase.query (Some EmptyString) (Some (String c cs)) w
    = (Raise (AttributeError
                "type object 'Product' has no attribute 'category'"), w)
    /\ ProductUsecase.query (Some EmptyString) None w
       = (Ok (map ProductOut.from_orm (table w)), w).
Proof.
  intros c cs w. split; [reflexivity|].
  rewrite query_name_unset. apply query_unfiltered.
Qed.

(** ** Looking a product up by primary key *)

Lemma has_id_iff (pk : string) (p : Product.t) :
  Product.has_id pk p = true <-> Product.id p = Some pk.
Proof.
  unfold Product.has_id. destruct (Product.id p) as [i|]; simpl.
  - rewrite String.eqb_eq. split; [now intros -> | now intros [= ->]].
  - split; discriminate.
Qed.

Lemma stored_iff (pk : string) (w : World) :
  stored pk w <-> existsb (Product.has_id pk) (table w) = true.
Proof.
  unfold stored. rewrite existsb_exists.
  split; intros [p [Hin H]]; exists p; split; trivial; now apply has_id_iff.
Qed.

Lemma not_stored_iff (pk : string) (w : World) :
  ~ stored pk w <-> existsb (Product.has_id pk) (table w) = false.
Proof.
  rewrite stored_iff. now destruct (existsb (Product.has_id pk) (table w)).
Qed.

Lemma find_not_stored (pk : string) (w : World) :
  ~ stored pk w -> find (Product.has_id pk) (table w) = None.
Proof.
  intros H. destruct (find (Product.has_id pk) (table w)) eqn:E; [|reflexivity].
  apply find_some in E as [Hin Hid]. elim H. exists t.
  split; [exact Hin | now apply has_id_iff].
Qed.

Lemma find_stored (pk : string) (w : World) :
  stored pk w ->
  exists old, find (Product.has_id pk) (table w) = Some old
              /\ In old (table w) /\ Product.id old = Some pk.
Proof.
  intros [p [Hin Hid]].
  destruct (find (Product.has_id pk) (table w)) as [old|] eqn:E.
  - exists old. apply find_some in E as [Ho Hi].
    repeat split; trivial. now apply has_id_iff.
  - apply (find_none _ _ E) in Hin. apply has_id_iff in Hid. congruence.
Qed.

Lemma get_missing (pk : string) (w : World) :
  ~ stored pk w ->
  ProductUsecase.get pk w
  = (Raise (NotFoundException (not_found_message pk)), w).
Proof.
  intros H. apply find_not_stored in H.
  unfold ProductUsecase.get, bind, session_get. now rewrite H.
Qed.

Lemma update_missing (pk : string) (body : ProductUpdate.t) (w : World) :
  ~ stored pk w ->
  ProductUsecase.update pk body w
  = (Raise (NotFoundException (not_found_message pk)), w).
Proof.
  intros H. apply find_not_stored in H.
  unfold ProductUsecase.update, bind, session_get. now rewrite H.
Qed.

Lemma delete_missing (pk : string) (w : World) :
  ~ stored pk w ->
  ProductUsecase.delete pk w
  = (Raise (NotFoundException (not_found_message pk)), w).
Proof.
  intros H. apply find_not_stored in H.
  unfold ProductUsecase.delete, bind, session_get. now rewrite H.
Qed.

(** C5: for an id with no stored record, get raises [NotFoundException]
    and so does update, and both leave the world exactly as it was. *)
Theorem get_update_not_found :
  forall (pk : string) (body : ProductUpdate.t) (w : World),
    ~ stored pk w ->
    ProductUsecase.get pk w
    = (Raise (NotFoundException (not_found_message pk)), w)
    /\ ProductUsecase.update pk body w
       = (Raise (NotFoundException (not_found_message pk)), w).
Proof.
  intros pk body w H. split; [now apply get_missing | now apply update_missing].
Qed.

Lemma get_update_not_found_witness :
  ProductUsecase.get gadget_id widget_world
  = (Raise (NotFoundException (not_found_message gadget_id)), widget_world)
  /\ ProductUsecase.update gadget_id
       (ProductUpdate.mk None (Some 5%Z) None None) widget_world
     = (Raise (NotFoundException (not_found_message gadget_id)), widget_world).
Proof.
  apply (get_update_not_found gadget_id).
  apply not_stored_iff. reflexivity.
Defined.

(** ** The controllers *)

(** C9: each route turns the outcome of its usecase into the response
    of the table: a created product into 201 with its representation, a
    finished delete into 204 with no body, a [NotFoundException] into
    404 with the message of the exception, an [IntegrityError] into 400
    with a detail that quotes the conflict; reads and updates that
    return give 200. *)
Theorem route_maps_outcomes :
  forall (w : World),
    (forall body out w',
        ProductUsecase.create body w = (Ok out, w') ->
        route (POST body) w = (mk_response 201 (product_json out), w'))
    /\ (forall body orig w',
          ProductUsecase.create body w = (Raise (IntegrityError orig), w') ->
          route (POST body) w
          = (mk_response 400 (detail_json ("Erro de integridade: " ++ orig)), w'))
    /\ (forall id w',
          ProductUsecase.delete id w = (Ok tt, w') ->
          route (DELETE id) w = (mk_response 204 empty_body, w'))
    /\ (forall id m w',
          ProductUsecase.delete id w = (Raise (NotFoundException m), w') ->
          route (DELETE id) w = (mk_response 404 (detail_json m), w'))
    /\ (forall id out w',
          ProductUsecase.get id w = (Ok out, w') ->
          route (GET id) w = (mk_response 200 (product_json out), w'))
    /\ (forall id m w',
          ProductUsecase.get id w = (Raise (NotFoundException m), w') ->
          route (GET id) w = (mk_response 404 (detail_json m), w'))
    /\ (forall id body out w',
          ProductUsecase.update id body w = (Ok out, w') ->
          route (PATCH id body) w = (mk_response 200 (updated_json out), w'))
    /\ (forall id body m w',
          ProductUsecase.update id body w = (Raise (NotFoundException m), w') ->
          route (PATCH id body) w = (mk_response 404 (detail_json m), w'))
    /\ (forall id body orig w',
          ProductUsecase.update id body w = (Raise (IntegrityError orig), w') ->
          route (PATCH id body) w
          = (mk_response 400 (detail_json ("Erro de integridade: " ++ orig)), w'))
    /\ (forall name category out w',
          ProductUsecase.query name category w = (Ok out, w') ->
          route (GET_list name category) w
          = (mk_response 200 (products_json out), w')).
Proof.
  intros w.
  repeat split; intros;
    unfold route, respond, controllers.post, controllers.get,
      controllers.patch, controllers.delete, controllers.query, try_except;
    rewrite H; reflexivity.
Qed.

Lemma route_maps_outcomes_witness :
  route (POST widget) empty_world
  = (mk_response 201 (product_json (ProductOut.from_orm widget_row)),
     with_session [mk_instance widget_row (Some widget_row) false] widget_world)
  /\ (exists orig w',
         route (POST widget) widget_world
         = (mk_response 400 (detail_json ("Erro de integridade: " ++ orig)), w'))
  /\ route (DELETE widget_id) widget_world
     = (mk_response 204 empty_body,
        mk_world [] [] 2 1 sample_clock sample_entropy)
  /\ route (DELETE gadget_id) widget_world
     = (mk_response 404 (detail_json (not_found_message gadget_id)),
        widget_world)
  /\ route (GET gadget_id) widget_world
     = (mk_response 404 (detail_json (not_found_message gadget_id)),
        widget_world).
Proof.
  split; [|split; [|split; [|split]]].
  - apply (proj1 (route_maps_outcomes empty_world)). reflexivity.
  - eexists. eexists.
    apply (proj1 (proj2 (route_maps_outcomes widget_world))). reflexivity.
  - apply (proj1 (proj2 (proj2 (route_maps_outcomes widget_world)))).
    reflexivity.
  - apply (proj1 (proj2 (proj2 (proj2 (route_maps_outcomes widget_world))))).
    reflexivity.
  - apply (proj1 (proj2 (proj2 (proj2 (proj2 (proj2
             (route_maps_outcomes widget_world))))))).
    reflexivity.
Defined.

(** ** create *)

Lemma same_id_has_id (pk : string) (p r : Product.t) :
  Product.id p = Some pk -> Product.same_id p r = Product.has_id pk r.
Proof.
  unfold Product.same_id, Product.has_id. intros ->.
  destruct (Product.id r) as [i|]; simpl; [apply String.eqb_sym | reflexivity].
Qed.

Lemma same_id_sym (p r : Product.t) : Product.same_id p r = Product.same_id r p.
Proof.
  unfold Product.same_id.
  destruct (Product.id p), (Product.id r); simpl; trivial. apply String.eqb_sym.
Qed.

Lemma find_appended (pk : string) (row : Product.t) (rows : list Product.t) :
  Product.id row = Some pk ->
  existsb (Product.has_id pk) rows = false ->
  find (Product.same_id row) (rows ++ [row]) = Some row.
Proof.
  intros Hid. induction rows as [|r rows IH]; simpl; intros H.
  - rewrite (same_id_has_id pk) by exact Hid.
    now rewrite (proj2 (has_id_iff pk row) Hid).
  - apply orb_false_iff in H as [Hr Hrows].
    rewrite (same_id_has_id pk) by exact Hid. rewrite Hr. now apply IH.
Qed.

Lemma create_run (body : ProductIn.t) (w : World) :
  session w = [] ->
  ProductUsecase.create body w
  = if existsb (Product.has_id (created_id w)) (table w) then
      (Raise (IntegrityError "UNIQUE constraint failed: products.id"),
       mk_world (table w) [] (S (S (tick w))) (S (draws w)) (clock w) (entropy w))
    else if existsb (fun r => String.eqb (Product.name r) (ProductIn.name body))
                    (table w) then
      (Raise (IntegrityError "UNIQUE constraint failed: products.name"),
       mk_world (table w) [] (S (S (tick w))) (S (draws w)) (clock w) (entropy w))
    else
      (Ok (ProductOut.from_orm (created_row body w)),
       mk_world (table w ++ [created_row body w])
         [mk_instance (created_row body w) (Some (created_row body w)) false]
         (S (S (tick w))) (S (draws w)) (clock w) (entropy w)).
Proof.
  destruct w as [rows sess t d clk ent]. simpl. intros ->.
  unfold ProductUsecase.create, try_except, bind, session_add, session_commit,
    session_rollback, with_session, with_table, created_id, created_row.
  cbn [session table tick draws clock entropy app flush attrs committed deleted].
  unfold insert, bind, default, Product_of_dict, new_uuid, utcnow, raise, ret.
  cbn [session table tick draws clock entropy app flush attrs committed deleted
       Product.id Product.created_at Product.updated_at Product.name
       Product.quantity Product.price Product.status fst snd].
  destruct (existsb (Product.has_id (str_uuid (uuid4_of (ent d)))) rows) eqn:Epk;
    cbn [is_IntegrityError flat_map session committed]; [reflexivity|].
  destruct (existsb (fun r => String.eqb (Product.name r) (ProductIn.name body))
                    rows) eqn:En;
    cbn [is_IntegrityError flat_map session committed fst snd app];
    [reflexivity|].
  unfold session_refresh, getattrs.
  cbn [session table nth_error List.length committed].
  rewrite (find_appended (str_uuid (uuid4_of (ent d)))) by (trivial; reflexivity).
  reflexivity.
Qed.

Lemma name_free_iff (n : string) (rows : list Product.t) :
  (forall p, In p rows -> Product.name p <> n)
  <-> existsb (fun r => String.eqb (Product.name r) n) rows = false.
Proof.
  split.
  - intros H. destruct (existsb _ rows) eqn:E; [|reflexivity].
    apply existsb_exists in E as [p [Hin Hp]]. apply String.eqb_eq in Hp.
    now elim (H p Hin).
  - intros E p Hin Hp.
    assert (X : existsb (fun r => String.eqb (Product.name r) n) rows = true).
    { apply existsb_exists. exists p. split; [exact Hin|].
      now apply String.eqb_eq. }
    congruence.
Qed.

Lemma name_taken_iff (n : string) (rows : list Product.t) :
  (exists p, In p rows /\ Product.name p = n)
  <-> existsb (fun r => String.eqb (Product.name r) n) rows = true.
Proof.
  rewrite existsb_exists.
  split; intros [p [Hin Hp]]; exists p; split; trivial; now apply String.eqb_eq.
Qed.


(** C1, as amended: for a valid payload (numbers within the range of
    their columns) whose name is not stored, and an identifier drawn
    that is not stored either, create returns a
    representation with a generated identifier of 36 characters, the
    four fields of the payload, and as [created_at] and [updated_at]
    two successive readings of the clock, in order when the clock does
    not run backwards; the row it returns is the one appended to the
    table. *)
Theorem create_returns_input :
  forall (body : ProductIn.t) (w : World),
    ProductIn.valid body ->
    session w = [] ->
    (forall p, In p (table w) -> Product.name p <> ProductIn.name body) ->
    ~ stored (created_id w) w ->
    exists out w' pk,
      ProductUsecase.create body w = (Ok out, w')
      /\ ProductOut.id out = Some pk /\ pk <> EmptyString
      /\ String.length pk = 36%nat
      /\ ProductOut.created_at out = Some (clock w (tick w))
      /\ ProductOut.updated_at out = Some (clock w (S (tick w)))
      /\ (monotone (clock w) -> (clock w (tick w) <= clock w (S (tick w)))%Z)
      /\ ProductOut.name out = ProductIn.name body
      /\ ProductOut.quantity out = ProductIn.quantity body
      /\ ProductOut.price out = ProductIn.price body
      /\ ProductOut.status out = ProductIn.status body
      /\ table w' = (table w ++ [created_row body w])%list
      /\ out = ProductOut.from_orm (created_row body w).
Proof.
  intros body w _ Hs Hname Hid.
  apply name_free_iff in Hname. apply not_stored_iff in Hid.
  rewrite (create_run body w Hs), Hid, Hname.
  eexists. eexists. exists (created_id w).
  split; [reflexivity|].
  split; [reflexivity|].
  split; [apply str_uuid_nonempty|].
  split; [apply length_str_uuid|].
  split; [reflexivity|].
  split; [reflexivity|].
  split; [intros Hm; apply Hm; lia|].
  repeat split.
Qed.

Lemma create_returns_input_witness :
  exists out w' pk,
    ProductUsecase.create gadget widget_world = (Ok out, w')
    /\ ProductOut.id out = Some pk /\ pk <> EmptyString
    /\ String.length pk = 36%nat
    /\ ProductOut.created_at out = Some 1002%Z
    /\ ProductOut.updated_at out = Some 1003%Z
    /\ (monotone sample_clock -> (1002 <= 1003)%Z)
    /\ ProductOut.name out = "Gadget"
    /\ ProductOut.quantity out = 3%Z
    /\ ProductOut.price out = 2500%Z
    /\ ProductOut.status out = false
    /\ table w' = [widget_row; gadget_row]
    /\ out = ProductOut.from_orm gadget_row.
Proof.
  apply (create_returns_input gadget widget_world).
  - unfold ProductIn.valid, ProductIn.storable, fits_Integer, fits_Numeric.
    cbn. repeat split; try discriminate; lia.
  - reflexivity.
  - apply name_free_iff. reflexivity.
  - apply not_stored_iff. reflexivity.
Defined.

(** C1, as stated, fails: the two timestamp defaults are two calls of
    the clock, and the readings need not be equal. *)
Lemma create_timestamps_differ :
  ProductIn.valid widget
  /\ (forall p, In p (table empty_world) -> Product.name p <> ProductIn.name widget)
  /\ exists out w',
      ProductUsecase.create widget empty_world = (Ok out, w')
      /\ ProductOut.created_at out = Some 1000%Z
      /\ ProductOut.updated_at out = Some 1001%Z
      /\ ProductOut.created_at out <> ProductOut.updated_at out.
Proof.
  split.
  { unfold ProductIn.valid, ProductIn.storable, fits_Integer, fits_Numeric.
    cbn. repeat split; try discriminate; lia. }
  split; [intros p []|].
  eexists. eexists. split; [reflexivity|].
  repeat split. discriminate.
Qed.

(** When the identifier drawn is already a primary key, the INSERT is
    rejected whatever the name. *)
Lemma create_id_collision (body : ProductIn.t) (w : World) :
  session w = [] -> stored (created_id w) w ->
  exists w', ProductUsecase.create body w
             = (Raise (IntegrityError "UNIQUE constraint failed: products.id"), w')
             /\ table w' = table w /\ session w' = [].
Proof.
  intros Hs Hid. apply stored_iff in Hid.
  rewrite (create_run body w Hs), Hid. eexists. repeat split.
Qed.



(** ** delete *)

Lemma delete_run (pk : string) (old : Product.t) (w : World) :
  session w = [] ->
  find (Product.has_id pk) (table w) = Some old ->
  ProductUsecase.delete pk w
  = (Ok tt,
     mk_world (filter (fun r => negb (Product.has_id pk r)) (table w)) []
              (tick w) (draws w) (clock w) (entropy w)).
Proof.
  destruct w as [rows sess t d clk ent]. simpl. intros -> Hfind.
  unfold ProductUsecase.delete, bind, session_get. simpl. rewrite Hfind.
  unfold session_delete, session_commit, with_session, with_table, bind, ret.
  simpl. do 2 f_equal. apply filter_ext. intros r. f_equal.
  apply find_some in Hfind as [_ Hid]. apply has_id_iff in Hid.
  unfold Product.same_id, Product.has_id. now rewrite Hid.
Qed.

(** C7: delete on the id of a stored product returns [None], leaves no
    row with that id in the table and every other row in place, and a
    get on the same id then raises [NotFoundException]; delete on an id
    that is not stored raises [NotFoundException] and changes nothing. *)
Theorem delete_then_get :
  forall (pk : string) (w : World),
    (session w = [] -> stored pk w ->
     exists w',
       ProductUsecase.delete pk w = (Ok tt, w')
       /\ ~ stored pk w'
       /\ table w' = filter (fun r => negb (Product.has_id pk r)) (table w)
       /\ (forall r, In r (table w') <-> In r (table w) /\ Product.id r <> Some pk)
       /\ ProductUsecase.get pk w'
          = (Raise (NotFoundException (not_found_message pk)), w'))
    /\ (~ stored pk w ->
        ProductUsecase.delete pk w
        = (Raise (NotFoundException (not_found_message pk)), w)).
Proof.
  intros pk w. split; [|apply delete_missing].
  intros Hs Hst. destruct (find_stored pk w Hst) as [old [Hfind _]].
  rewrite (delete_run pk old w Hs Hfind). eexists. split; [reflexivity|].
  assert (Hin : forall r,
             In r (filter (fun r => negb (Product.has_id pk r)) (table w))
             <-> In r (table w) /\ Product.id r <> Some pk).
  { intros r. rewrite filter_In, negb_true_iff, <- has_id_iff.
    now destruct (Product.has_id pk r). }
  assert (Hgone : ~ stored pk
                    (mk_world (filter (fun r => negb (Product.has_id pk r))
                                      (table w)) []
                              (tick w) (draws w) (clock w) (entropy w))).
  { intros [p [Hp Hid]]. simpl in Hp. apply Hin in Hp. now destruct Hp. }
  split; [exact Hgone|].
  split; [reflexivity|].
  split; [exact Hin|].
  now apply get_missing.
Qed.

Lemma delete_then_get_witness :
  (exists w',
      ProductUsecase.delete widget_id two_world = (Ok tt, w')
      /\ ~ stored widget_id w'
      /\ table w' = [gadget_row]
      /\ (forall r, In r (table w')
                    <-> In r (table two_world) /\ Product.id r <> Some widget_id)
      /\ ProductUsecase.get widget_id w'
         = (Raise (NotFoundException (not_found_message widget_id)), w'))
  /\ ProductUsecase.delete gadget_id widget_world
     = (Raise (NotFoundException (not_found_message gadget_id)), widget_world).
Proof.
  split.
  - apply (proj1 (delete_then_get widget_id two_world)).
    + reflexivity.
    + apply stored_iff. reflexivity.
  - apply (proj2 (delete_then_get gadget_id widget_world)).
    apply not_stored_iff. reflexivity.
Defined.

(** ** update *)

Lemma bind_ok {A B} (m : M A) (k : A -> M B) (w w' : World) (a : A) :
  m w = (Ok a, w') -> bind m k w = k a w'.
Proof. unfold bind. now intros ->. Qed.

Lemma for_each_setattr (items : list ProductUpdate.item) (p : Product.t)
      (c : option Product.t) (d : bool) rows t dr clk ent :
  for_each items (setattr 0) (mk_world rows [mk_instance p c d] t dr clk ent)
  = (Ok tt,
     mk_world rows [mk_instance (fold_left assign items p) c d] t dr clk ent).
Proof.
  revert p. induction items as [|kv items IH]; intros p; [reflexivity|].
  cbn [for_each fold_left]. erewrite bind_ok; [apply IH|].
  destruct kv; reflexivity.
Qed.

(** The update loop computes the partial update of the specification. *)
Lemma assign_patched (body : ProductUpdate.t) (p : Product.t) :
  fold_left assign (ProductUpdate.dict_exclude_unset body) p = patched body p.
Proof.
  destruct body as [[n|] [q|] [pr|] [s|]], p; reflexivity.
Qed.

Lemma find_same_id (pk : string) (p : Product.t) (rows : list Product.t) :
  Product.id p = Some pk ->
  find (Product.same_id p) rows = find (Product.has_id pk) rows.
Proof.
  intros Hid. induction rows as [|r rows IH]; simpl; [reflexivity|].
  now rewrite (same_id_has_id pk p r Hid), IH.
Qed.

Lemma find_replaced (pk : string) (old new : Product.t) (rows : list Product.t) :
  Product.id new = Some pk ->
  find (Product.has_id pk) rows = Some old ->
  find (Product.has_id pk)
       (map (fun r => if Product.same_id r old then new else r) rows)
  = Some new.
Proof.
  intros Hnew. induction rows as [|r rows IH]; simpl; [discriminate|].
  destruct (Product.has_id pk r) eqn:E.
  - intros [= ->]. rewrite (same_id_has_id pk old old), E.
    + now rewrite (proj2 (has_id_iff pk new) Hnew).
    + now apply has_id_iff.
  - intros Hfind. pose proof (find_some _ _ Hfind) as [_ Hold].
    apply has_id_iff in Hold.
    rewrite same_id_sym, (same_id_has_id pk old r Hold), E, E. now apply IH.
Qed.

(** The commit, refresh and return of update, from the world in which
    the loaded object [old] has been given the attributes [new]. *)
Lemma save_run (pk : string) (new old : Product.t) (rows : list Product.t)
      (t d : nat) (clk : nat -> datetime) (ent : nat -> N) :
  find (Product.has_id pk) rows = Some old ->
  Product.id new = Product.id old ->
  try_except
    (session_commit ;;
     session_refresh 0 ;;
     p <- getattrs 0 ;;
     ret (ProductUpdateOut.from_orm p))
    is_IntegrityError
    (fun exc => session_rollback ;; raise exc)
    (mk_world rows [mk_instance new (Some old) false] t d clk ent)
  = if Product.eqb new old then
      (Ok (ProductUpdateOut.from_orm old),
       mk_world rows [mk_instance old (Some old) false] t d clk ent)
    else
      let stale := option_eqb Z.eqb (Product.updated_at new)
                              (Product.updated_at old) in
      let new' := if stale then Product.set_updated_at (Some (clk t)) new
                  else new in
      let t' := if stale then S t else t in
      if negb (String.eqb (Product.name new') (Product.name old))
         && others_named (Product.name new') old rows then
        (Raise (IntegrityError "UNIQUE constraint failed: products.name"),
         mk_world rows [mk_instance old (Some old) false] t' d clk ent)
      else
        (Ok (ProductUpdateOut.from_orm new'),
         mk_world (map (fun r => if Product.same_id r old then new' else r) rows)
                  [mk_instance new' (Some new') false] t' d clk ent).
Proof.
  intros Hfind Hid.
  pose proof (find_some _ _ Hfind) as [_ Hold]. apply has_id_iff in Hold.
  unfold try_except, bind, session_commit.
  cbn [table session tick draws clock entropy flush committed deleted attrs].
  unfold bind, update_row.
  destruct (Product.eqb new old) eqn:Eeq.
  - world_step. unfold session_refresh, getattrs. world_step.
    rewrite (find_same_id pk old rows Hold), Hfind. world_step. reflexivity.
  - cbv zeta.
    destruct (option_eqb Z.eqb (Product.updated_at new) (Product.updated_at old));
      unfold bind, utcnow; world_step;
      (destruct (negb _ && others_named _ old rows); [reflexivity|]);
      world_step; unfold session_refresh, getattrs; world_step;
      rewrite (find_same_id pk) by (cbn; congruence);
      rewrite (find_replaced pk old) by (trivial; cbn; congruence);
      reflexivity.
Qed.

Lemma update_run (pk : string) (body : ProductUpdate.t) (old : Product.t)
      (w : World) :
  session w = [] ->
  find (Product.has_id pk) (table w) = Some old ->
  ProductUsecase.update pk body w
  = let now := clock w (tick w) in
    let new := Product.set_updated_at (Some now) (patched body old) in
    if Product.eqb new old then
      (Ok (ProductUpdateOut.from_orm old),
       mk_world (table w) [mk_instance old (Some old) false]
                (S (tick w)) (draws w) (clock w) (entropy w))
    else
      let stale := option_eqb Z.eqb (Some now) (Product.updated_at old) in
      let new' := if stale
                  then Product.set_updated_at (Some (clock w (S (tick w)))) new
                  else new in
      let t' := if stale then S (S (tick w)) else S (tick w) in
      if negb (String.eqb (Product.name new') (Product.name old))
         && others_named (Product.name new') old (table w) then
        (Raise (IntegrityError "UNIQUE constraint failed: products.name"),
         mk_world (table w) [mk_instance old (Some old) false]
                  t' (draws w) (clock w) (entropy w))
      else
        (Ok (ProductUpdateOut.from_orm new'),
         mk_world (map (fun r => if Product.same_id r old then new' else r)
                       (table w))
                  [mk_instance new' (Some new') false]
                  t' (draws w) (clock w) (entropy w)).
Proof.
  destruct w as [rows sess t d clk ent].
  cbn [table session tick draws clock entropy]. intros -> Hfind.
  unfold ProductUsecase.update. unfold bind at 1. unfold session_get.
  cbn [table session]. rewrite Hfind. world_step.
  erewrite bind_ok; [|apply for_each_setattr]. rewrite assign_patched.
  unfold bind at 1. unfold utcnow at 1. world_step.
  unfold bind at 1. unfold modify at 1. world_step.
  rewrite (save_run pk) by (trivial; destruct old; reflexivity).
  reflexivity.
Qed.

Lemma others_named_free (pk n : string) (old : Product.t)
      (rows : list Product.t) :
  Product.id old = Some pk ->
  (forall r, In r rows -> Product.id r <> Some pk -> Product.name r <> n) ->
  others_named n old rows = false.
Proof.
  intros Hold H. unfold others_named.
  destruct (existsb _ rows) eqn:E; [|reflexivity].
  apply existsb_exists in E as [r [Hin Hr]].
  apply andb_true_iff in Hr as [Hid Hn].
  apply String.eqb_eq in Hn. apply negb_true_iff in Hid.
  elim (H r Hin); [|exact Hn].
  intros Hr. unfold Product.same_id in Hid.
  rewrite Hr, Hold in Hid. simpl in Hid. now rewrite String.eqb_refl in Hid.
Qed.

(** C2, as stated, fails twice over: a payload that renames a product
    to a name held by another one is rejected and nothing is applied;
    and on a clock that has not moved on since the last write the
    update returns with [updated_at] equal to the former value. *)
Lemma update_rejected_or_not_later :
  (stored gadget_id two_world
   /\ exists w',
       ProductUsecase.update gadget_id
         (ProductUpdate.mk (Some "Widget") None None None) two_world
       = (Raise (IntegrityError "UNIQUE constraint failed: products.name"), w')
       /\ table w' = table two_world)
  /\ (Product.updated_at widget_row = Some 1001%Z
      /\ exists out w',
          ProductUsecase.update widget_id
            (ProductUpdate.mk None (Some 5%Z) None None) stalled_world
          = (Ok out, w')
          /\ ProductUpdateOut.quantity out = 5%Z
          /\ ProductUpdateOut.updated_at out = Some 1001%Z).
Proof.
  split.
  - split; [apply stored_iff; reflexivity|].
    eexists. split; reflexivity.
  - split; [reflexivity|].
    eexists. eexists. repeat split.
Qed.

(** ** Every operation, and the invariant *)

Lemma run_effect (o : operation) (w : World) :
  effect w o (table (run o w))
  /\ clock (run o w) = clock w
  /\ (tick w <= tick (run o w))%nat
  /\ session (run o w) = [].
Proof.
  destruct w as [rows sess t d clk ent].
  destruct o as [body | pk body | pk]; unfold run, with_session;
    cbn [table session tick draws clock entropy].
  - rewrite create_run by reflexivity.
    cbn [table session tick draws clock entropy].
    destruct (existsb (Product.has_id _) rows) eqn:Epk.
    { cbn [snd table session tick draws clock entropy].
      repeat split; [apply (effect_none (mk_world rows sess t d clk ent)) | lia]. }
    destruct (existsb (fun r => String.eqb _ _) rows) eqn:En.
    { cbn [snd table session tick draws clock entropy].
      repeat split; [apply (effect_none (mk_world rows sess t d clk ent)) | lia]. }
    cbn [snd table session tick draws clock entropy].
    repeat split; [|lia].
    apply (effect_insert (mk_world rows sess t d clk ent) body _
             (created_id (mk_world rows [] t d clk ent))); try reflexivity.
    apply not_stored_iff. exact Epk.
  - destruct (find (Product.has_id pk) rows) as [old|] eqn:Hfind.
    + pose proof (find_some _ _ Hfind) as [Hin Hold]. apply has_id_iff in Hold.
      rewrite (update_run pk body old) by (trivial; reflexivity).
      cbv zeta. cbn [table session tick draws clock entropy].
      destruct (Product.eqb _ old).
      { cbn [snd table session tick draws clock entropy].
        repeat split; [apply (effect_none (mk_world rows sess t d clk ent)) | lia]. }
      assert (Hext : forall new : Product.t,
                 map (fun r => if Product.same_id r old then new else r) rows
                 = map (fun r => if Product.has_id pk r then new else r) rows).
      { intros new. apply map_ext. intros r.
        now rewrite same_id_sym, (same_id_has_id pk old r Hold). }
      destruct (option_eqb Z.eqb (Some (clk t)) (Product.updated_at old));
        (destruct (negb _ && others_named _ old rows);
         [cbn [snd table session tick draws clock entropy];
          repeat split; [apply (effect_none (mk_world rows sess t d clk ent)) | lia]|]);
        cbn [snd table session tick draws clock entropy];
        (repeat split; [|lia]); rewrite Hext.
      * apply (effect_update (mk_world rows sess t d clk ent) pk body old _ (S t));
          trivial; destruct old; cbn in *; trivial; lia.
      * apply (effect_update (mk_world rows sess t d clk ent) pk body old _ t);
          trivial; destruct old; cbn in *; trivial; lia.
    + assert (Hn : ~ stored pk (mk_world rows [] t d clk ent)).
      { intros Hst. destruct (find_stored _ _ Hst) as [old [Hf _]].
        cbn in Hf. congruence. }
      rewrite (update_missing pk body _ Hn).
      cbn [snd table session tick draws clock entropy].
      repeat split; [apply (effect_none (mk_world rows sess t d clk ent)) | lia].
  - destruct (find (Product.has_id pk) rows) as [old|] eqn:Hfind.
    + rewrite (delete_run pk old) by (trivial; reflexivity).
      cbn [snd table session tick draws clock entropy].
      repeat split; [apply (effect_delete (mk_world rows sess t d clk ent)) | lia].
    + assert (Hn : ~ stored pk (mk_world rows [] t d clk ent)).
      { intros Hst. destruct (find_stored _ _ Hst) as [old [Hf _]].
        cbn in Hf. congruence. }
      rewrite (delete_missing pk _ Hn).
      cbn [snd table session tick draws clock entropy].
      repeat split; [apply (effect_none (mk_world rows sess t d clk ent)) | lia].
Qed.

Lemma NoDup_snoc {A} (l : list A) (a : A) :
  NoDup l -> ~ In a l -> NoDup (l ++ [a]).
Proof.
  induction l as [|x l IH]; simpl; intros Hnd Hnot.
  - constructor; [easy | constructor].
  - inversion Hnd as [|y l' Hx Hl]; subst. constructor.
    + rewrite in_app_iff. simpl. intros [H | [H | []]]; [easy|].
      apply Hnot. now left.
    + apply IH; [exact Hl|]. intros H. apply Hnot. now right.
Qed.

Lemma NoDup_map_filter {A B} (f : A -> B) (g : A -> bool) (l : list A) :
  NoDup (map f l) -> NoDup (map f (filter g l)).
Proof.
  induction l as [|x l IH]; simpl; intros Hnd; [constructor|].
  inversion Hnd as [|y l' Hx Hl]; subst.
  destruct (g x); simpl; [constructor|]; auto.
  intros H. apply Hx. apply in_map_iff in H as [z [Hz Hin]].
  apply in_map_iff. exists z. split; [exact Hz|]. now apply filter_In in Hin.
Qed.

Lemma NoDup_map_inj {A B} (f : A -> B) (l : list A) (p q : A) :
  NoDup (map f l) -> In p l -> In q l -> f p = f q -> p = q.
Proof.
  induction l as [|x l IH]; simpl; intros Hnd Hp Hq E; [easy|].
  inversion Hnd as [|y l' Hx Hl]; subst.
  destruct Hp as [-> | Hp], Hq as [-> | Hq]; trivial.
  - elim Hx. rewrite E. now apply in_map.
  - elim Hx. rewrite <- E. now apply in_map.
  - now apply IH.
Qed.

Lemma map_id_replaced (pk : string) (new : Product.t) (rows : list Product.t) :
  Product.id new = Some pk ->
  map Product.id (map (fun r => if Product.has_id pk r then new else r) rows)
  = map Product.id rows.
Proof.
  intros Hnew. rewrite map_map. apply map_ext. intros r.
  destruct (Product.has_id pk r) eqn:E; [|reflexivity].
  apply has_id_iff in E. congruence.
Qed.

Lemma effect_invariant (w w' : World) (o : operation) (rows' : list Product.t) :
  monotone (clock w) -> invariant w ->
  effect w o rows' -> table w' = rows' ->
  clock w' = clock w -> (tick w <= tick w')%nat ->
  invariant w'.
Proof.
  intros Hmono [Hnd Hrows] Heff Htab Hclk Htick.
  assert (Hlater : forall k, (tick w <= k)%nat ->
                             (clock w (tick w) <= clock w k)%Z)
    by (intros k Hk; now apply Hmono).
  assert (Hkeep : forall p, In p (table w) ->
            exists pk c u,
              Product.id p = Some pk /\ Product.created_at p = Some c
              /\ Product.updated_at p = Some u
              /\ (c <= u)%Z /\ (c <= clock w' (tick w'))%Z).
  { intros p Hp. destruct (Hrows p Hp) as [pk [c [u [H1 [H2 [H3 [H4 H5]]]]]]].
    exists pk, c, u. repeat split; trivial. rewrite Hclk.
    specialize (Hlater _ Htick). lia. }
  unfold invariant. rewrite Htab.
  destruct Heff as
      [o | body row pk Hid Hfresh Hc Hu
       | pk body old new k Hin Hold Hnew Hc Hu Hk | pk].
  - split; [exact Hnd | exact Hkeep].
  - split.
    + rewrite map_app. apply NoDup_snoc; [exact Hnd|]. simpl. rewrite Hid.
      intros H. apply in_map_iff in H as [r [Hr Hinr]].
      apply Hfresh. now exists r.
    + intros p Hp. apply in_app_iff in Hp as [Hp | [<- | []]]; [now apply Hkeep|].
      exists pk, (clock w (tick w)), (clock w (S (tick w))).
      repeat split; trivial.
      * apply Hmono. lia.
      * rewrite Hclk. now apply Hmono.
  - split.
    + rewrite map_id_replaced by exact Hnew. exact Hnd.
    + intros p Hp. apply in_map_iff in Hp as [r [Hr Hinr]].
      destruct (Product.has_id pk r); [|subst r; now apply Hkeep].
      subst p. destruct (Hkeep old Hin) as [pk' [c [u [H1 [H2 [H3 [H4 H5]]]]]]].
      destruct (Hrows old Hin) as [pk'' [c' [u' [G1 [G2 [G3 [G4 G5]]]]]]].
      exists pk, c, (clock w k). repeat split; trivial; try congruence.
      assert (c' = c) by congruence. subst c'.
      specialize (Hlater k Hk). lia.
  - split.
    + now apply NoDup_map_filter.
    + intros p Hp. apply filter_In in Hp as [Hp _]. now apply Hkeep.
Qed.

Lemma effect_frame (w : World) (o : operation) (rows' : list Product.t)
      (p : Product.t) :
  invariant w -> effect w o rows' -> In p (table w) ->
  (forall q, In q rows' -> Product.id q = Product.id p ->
             Product.created_at q = Product.created_at p)
  /\ ((forall pk, o = op_delete pk -> Product.id p <> Some pk) ->
      exists q, In q rows' /\ Product.id q = Product.id p
                /\ Product.created_at q = Product.created_at p).
Proof.
  intros [Hnd Hrows] Heff Hp.
  assert (Hsame : forall q, In q (table w) -> Product.id q = Product.id p ->
                            q = p)
    by (intros q Hq E; now apply (NoDup_map_inj Product.id (table w))).
  destruct Heff as
      [o | body row pk Hid Hfresh Hc Hu
       | pk body old new k Hin Hold Hnew Hc Hu Hk | pk].
  - split.
    + intros q Hq E. now rewrite (Hsame q Hq E).
    + intros _. now exists p.
  - split.
    + intros q Hq E. apply in_app_iff in Hq as [Hq | [<- | []]].
      * now rewrite (Hsame q Hq E).
      * elim Hfresh. exists p. split; [exact Hp | congruence].
    + intros _. exists p. split; [|now split]. apply in_app_iff. now left.
  - assert (Hcase : forall r, In r (table w) -> Product.id r = Product.id p ->
               Product.created_at (if Product.has_id pk r then new else r)
               = Product.created_at p
               /\ Product.id (if Product.has_id pk r then new else r)
                  = Product.id p).
    { intros r Hr E. rewrite (Hsame r Hr E).
      destruct (Product.has_id pk p) eqn:Ep; [|now split].
      apply has_id_iff in Ep.
      assert (old = p) by (apply Hsame; [exact Hin | congruence]).
      subst old. split; congruence. }
    split.
    + intros q Hq E. apply in_map_iff in Hq as [r [Hr Hinr]]. subst q.
      destruct (Product.has_id pk r) eqn:Er.
      * apply has_id_iff in Er.
        assert (old = p) by (apply Hsame; [exact Hin | congruence]).
        now subst old.
      * now rewrite (Hsame r Hinr E).
    + intros _. exists (if Product.has_id pk p then new else p).
      destruct (Hcase p Hp eq_refl) as [H1 H2].
      split; [|now split].
      apply in_map_iff. now exists p.
  - split.
    + intros q Hq E. apply filter_In in Hq as [Hq _]. now rewrite (Hsame q Hq E).
    + intros Hnot. exists p. split; [|now split].
      apply filter_In. split; [exact Hp|].
      apply negb_true_iff. destruct (Product.has_id pk p) eqn:Ep; [|reflexivity].
      apply has_id_iff in Ep. now elim (Hnot pk eq_refl).
Qed.

Lemma reachable_invariant (w0 w : World) :
  table w0 = [] -> monotone (clock w0) -> reachable w0 w ->
  invariant w /\ clock w = clock w0.
Proof.
  intros Hempty Hmono Hreach. induction Hreach as [|w o Hreach [Hinv Hclk]].
  - split; [|reflexivity]. unfold invariant. rewrite Hempty.
    split; [constructor | intros p []].
  - destruct (run_effect o w) as [Heff [Hc [Ht _]]].
    split; [|congruence].
    apply (effect_invariant w (run o w) o (table (run o w))); trivial.
    now rewrite Hclk.
Qed.

(** ** Reading back what was written *)

Lemma nth_error_last {A} (l : list A) (x : A) :
  nth_error (l ++ [x]) (List.length l) = Some x.
Proof. induction l as [|a l IH]; simpl; [reflexivity | exact IH]. Qed.

Lemma get_run (pk : string) (old : Product.t) (w : World) :
  find (Product.has_id pk) (table w) = Some old ->
  ProductUsecase.get pk w
  = (Ok (ProductOut.from_orm old),
     with_session (session w ++ [mk_instance old (Some old) false]) w).
Proof.
  intros Hfind. unfold ProductUsecase.get, bind, session_get. rewrite Hfind.
  unfold getattrs, with_session. cbn [session]. now rewrite nth_error_last.
Qed.

Lemma find_created (body : ProductIn.t) (w : World) :
  ~ stored (created_id w) w ->
  find (Product.has_id (created_id w)) (table w ++ [created_row body w])
  = Some (created_row body w).
Proof.
  intros Hid. apply not_stored_iff in Hid.
  rewrite <- (find_same_id (created_id w) (created_row body w)) by reflexivity.
  now apply (find_appended (created_id w)).
Qed.

Lemma create_ok (body : ProductIn.t) (w : World) :
  session w = [] ->
  (forall p, In p (table w) -> Product.name p <> ProductIn.name body) ->
  ~ stored (created_id w) w ->
  ProductUsecase.create body w
  = (Ok (ProductOut.from_orm (created_row body w)),
     mk_world (table w ++ [created_row body w])
       [mk_instance (created_row body w) (Some (created_row body w)) false]
       (S (S (tick w))) (S (draws w)) (clock w) (entropy w)).
Proof.
  intros Hs Hname Hid.
  apply name_free_iff in Hname. apply not_stored_iff in Hid.
  now rewrite (create_run body w Hs), Hid, Hname.
Qed.



Lemma filter_created (body : ProductIn.t) (w : World) :
  ~ stored (created_id w) w ->
  filter (fun r => negb (Product.has_id (created_id w) r))
         (table w ++ [created_row body w])
  = table w.
Proof.
  intros Hid. rewrite filter_app. cbn [filter].
  rewrite (proj2 (has_id_iff (created_id w) (created_row body w)) eq_refl).
  cbn [negb]. rewrite app_nil_r. apply filter_all.
  intros r Hr. apply negb_true_iff.
  destruct (Product.has_id (created_id w) r) eqn:E; [|reflexivity].
  elim Hid. exists r. split; [exact Hr | now apply has_id_iff].
Qed.



(** ** Rejected and accepted updates *)

Lemma eqb_name (p q : Product.t) :
  Product.eqb p q = true -> Product.name p = Product.name q.
Proof.
  unfold Product.eqb. intros H.
  repeat (apply andb_true_iff in H as [H ?]).
  now apply String.eqb_eq.
Qed.

Lemma others_named_iff (pk n : string) (old : Product.t)
      (rows : list Product.t) :
  Product.id old = Some pk ->
  others_named n old rows = true
  <-> exists r, In r rows /\ Product.id r <> Some pk /\ Product.name r = n.
Proof.
  intros Hold. unfold others_named. rewrite existsb_exists.
  split; intros [r [Hin H]]; exists r; (split; [exact Hin|]).
  - apply andb_true_iff in H as [Hid Hn]. apply String.eqb_eq in Hn.
    split; [|exact Hn]. intros Hr. apply negb_true_iff in Hid.
    rewrite same_id_sym, (same_id_has_id pk old r Hold) in Hid.
    apply has_id_iff in Hr. congruence.
  - destruct H as [Hid Hn]. apply andb_true_iff. split.
    + apply negb_true_iff.
      rewrite same_id_sym, (same_id_has_id pk old r Hold).
      destruct (Product.has_id pk r) eqn:E; [|reflexivity].
      apply has_id_iff in E. now elim Hid.
    + now apply String.eqb_eq.
Qed.

Lemma name_check_iff (pk : string) (body : ProductUpdate.t) (old : Product.t)
      (w : World) :
  Product.id old = Some pk ->
  negb (String.eqb (Product.name (patched body old)) (Product.name old))
  && others_named (Product.name (patched body old)) old (table w) = true
  <-> renames_to_taken pk body old w.
Proof.
  intros Hold. unfold renames_to_taken, patched. cbn [Product.name].
  rewrite andb_true_iff, negb_true_iff, String.eqb_neq,
    (others_named_iff pk _ old (table w) Hold).
  destruct (ProductUpdate.name body) as [n|]; split.
  - intros [Hne [r [Hin [Hid Hn]]]]. exists n, r. now repeat split.
  - intros [n' [r [[= <-] [Hne [Hin [Hid Hn]]]]]]. split; [exact Hne|].
    now exists r.
  - intros [Hne _]. now elim Hne.
  - intros [n' [r [H _]]]. discriminate H.
Qed.

(** When an update of a stored product is rejected, and what is left
    of it. *)
Lemma update_raises_iff :
  forall (pk : string) (body : ProductUpdate.t) (w : World) (old : Product.t),
    session w = [] ->
    find (Product.has_id pk) (table w) = Some old ->
    (renames_to_taken pk body old w ->
     exists w',
       ProductUsecase.update pk body w
       = (Raise (IntegrityError "UNIQUE constraint failed: products.name"), w')
       /\ table w' = table w
       /\ session w' = [mk_instance old (Some old) false]
       /\ draws w' = draws w)
    /\ (~ renames_to_taken pk body old w ->
        exists out w', ProductUsecase.update pk body w = (Ok out, w')).
Proof.
  intros pk body w old Hs Hfind.
  pose proof (find_some _ _ Hfind) as [_ Hold]. apply has_id_iff in Hold.
  pose proof (name_check_iff pk body old w Hold) as Hiff.
  rewrite (update_run pk body old w Hs Hfind). cbv zeta.
  set (new := Product.set_updated_at (Some (clock w (tick w))) (patched body old)).
  assert (Hn : forall v : option datetime,
             Product.name (Product.set_updated_at v new)
             = Product.name (patched body old)) by reflexivity.
  assert (Hn0 : Product.name new = Product.name (patched body old))
    by reflexivity.
  split.
  - intros Hren. apply Hiff in Hren.
    destruct (Product.eqb new old) eqn:E.
    + apply eqb_name in E. rewrite Hn0 in E.
      rewrite E, String.eqb_refl in Hren. discriminate Hren.
    + destruct (option_eqb Z.eqb (Some (clock w (tick w)))
                           (Product.updated_at old));
        rewrite ?Hn, ?Hn0, Hren; eexists; repeat split.
  - intros Hren.
    destruct (Product.eqb new old); [eexists; eexists; reflexivity|].
    assert (Hc : negb (String.eqb (Product.name (patched body old))
                                  (Product.name old))
                 && others_named (Product.name (patched body old)) old (table w)
                 = false).
    { apply not_true_is_false. intros E. now apply Hren, Hiff. }
    destruct (option_eqb Z.eqb (Some (clock w (tick w)))
                         (Product.updated_at old));
      rewrite ?Hn, ?Hn0, Hc; eexists; eexists; reflexivity.
Qed.

(** The three ways an update of a stored product can end: nothing to
    write, a rejected write, a replaced row. *)
Lemma update_cases (pk : string) (body : ProductUpdate.t) (old : Product.t)
      (w : World) :
  session w = [] ->
  find (Product.has_id pk) (table w) = Some old ->
  exists new t',
    Product.id new = Some pk
    /\ (ProductUsecase.update pk body w
        = (Ok (ProductUpdateOut.from_orm old),
           mk_world (table w) [mk_instance old (Some old) false]
                    t' (draws w) (clock w) (entropy w))
        \/ ProductUsecase.update pk body w
           = (Raise (IntegrityError "UNIQUE constraint failed: products.name"),
              mk_world (table w) [mk_instance old (Some old) false]
                       t' (draws w) (clock w) (entropy w))
        \/ ProductUsecase.update pk body w
           = (Ok (ProductUpdateOut.from_orm new),
              mk_world (map (fun r => if Product.has_id pk r then new else r)
                            (table w))
                       [mk_instance new (Some new) false]
                       t' (draws w) (clock w) (entropy w))
           /\ (Product.name new = Product.name old
               \/ others_named (Product.name new) old (table w) = false)).
Proof.
  intros Hs Hfind.
  pose proof (find_some _ _ Hfind) as [_ Hold]. apply has_id_iff in Hold.
  rewrite (update_run pk body old w Hs Hfind). cbv zeta.
  set (new := Product.set_updated_at (Some (clock w (tick w))) (patched body old)).
  assert (Hnew : Product.id new = Some pk) by (destruct old; exact Hold).
  assert (Hext : forall p : Product.t,
             map (fun r => if Product.same_id r old then p else r) (table w)
             = map (fun r => if Product.has_id pk r then p else r) (table w)).
  { intros p. apply map_ext. intros r.
    now rewrite same_id_sym, (same_id_has_id pk old r Hold). }
  destruct (Product.eqb new old).
  { exists new, (S (tick w)). split; [exact Hnew|]. now left. }
  destruct (option_eqb Z.eqb (Some (clock w (tick w))) (Product.updated_at old)).
  - exists (Product.set_updated_at (Some (clock w (S (tick w)))) new),
           (S (S (tick w))).
    split; [exact Hnew|].
    destruct (negb _ && _) eqn:E; [right; now left|].
    right. right. rewrite Hext. split; [reflexivity|].
    apply andb_false_iff in E as [E | E]; [left | now right].
    apply negb_false_iff in E. now apply String.eqb_eq.
  - exists new, (S (tick w)). split; [exact Hnew|].
    destruct (negb _ && _) eqn:E; [right; now left|].
    right. right. rewrite Hext. split; [reflexivity|].
    apply andb_false_iff in E as [E | E]; [left | now right].
    apply negb_false_iff in E. now apply String.eqb_eq.
Qed.

(** X2: whenever update returns, get on the same id in the next request
    returns the same seven fields, read from a row of the table. *)
Theorem update_then_get :
  forall (pk : string) (body : ProductUpdate.t) (w w1 : World)
         (out : ProductUpdateOut.t),
    session w = [] ->
    ProductUsecase.update pk body w = (Ok out, w1) ->
    exists p w2,
      ProductUsecase.get pk (with_session [] w1) = (Ok (ProductOut.from_orm p), w2)
      /\ out = ProductUpdateOut.from_orm p
      /\ In p (table w1)
      /\ table w2 = table w1.
Proof.
  intros pk body w w1 out Hs Hup.
  destruct (find (Product.has_id pk) (table w)) as [old|] eqn:Hfind.
  - pose proof (find_some _ _ Hfind) as [Hin _].
    destruct (update_cases pk body old w Hs Hfind)
      as [new [t' [Hnew [H | [H | [H _]]]]]];
      rewrite H in Hup; try discriminate Hup;
      injection Hup as <- <-.
    + exists old. eexists. rewrite (get_run pk old) by exact Hfind.
      repeat split. exact Hin.
    + assert (Hf : find (Product.has_id pk)
                     (map (fun r => if Product.has_id pk r then new else r)
                          (table w)) = Some new).
      { clear - Hfind Hnew. induction (table w) as [|r rows IH];
          [discriminate|]. simpl in *.
        destruct (Product.has_id pk r) eqn:E.
        - now rewrite (proj2 (has_id_iff pk new) Hnew).
        - rewrite E. now apply IH. }
      exists new. eexists. rewrite (get_run pk new) by exact Hf.
      repeat split. now apply find_some in Hf.
  - assert (Hn : ~ stored pk w).
    { intros Hst. destruct (find_stored pk w Hst) as [old [Hf _]]. congruence. }
    rewrite (update_missing pk body w Hn) in Hup. discriminate Hup.
Qed.

Lemma update_then_get_witness :
  exists p w2,
    ProductUsecase.get widget_id (with_session [] widget5_world)
    = (Ok (ProductOut.from_orm p), w2)
    /\ ProductUpdateOut.from_orm widget5_row = ProductUpdateOut.from_orm p
    /\ In p (table widget5_world)
    /\ table w2 = table widget5_world.
Proof.
  apply (update_then_get widget_id quantity_5 two_world widget5_world
                         (ProductUpdateOut.from_orm widget5_row)).
  - reflexivity.
  - reflexivity.
Defined.

(** X5: whatever its outcome, update keeps the primary keys of the
    table in place, leaves every row under another id where and as it
    was, and draws no identifier. *)
Theorem update_frame :
  forall (pk : string) (body : ProductUpdate.t) (w : World),
    session w = [] ->
    map Product.id (table (snd (ProductUsecase.update pk body w)))
    = map Product.id (table w)
    /\ (forall i r,
          nth_error (table w) i = Some r ->
          Product.id r <> Some pk ->
          nth_error (table (snd (ProductUsecase.update pk body w))) i = Some r)
    /\ draws (snd (ProductUsecase.update pk body w)) = draws w.
Proof.
  intros pk body w Hs.
  destruct (find (Product.has_id pk) (table w)) as [old|] eqn:Hfind.
  - destruct (update_cases pk body old w Hs Hfind)
      as [new [t' [Hnew [H | [H | [H _]]]]]]; rewrite H; cbn [snd table draws];
      try (repeat split; trivial).
    + now apply map_id_replaced.
    + intros i r Hi Hid. rewrite nth_error_map, Hi. cbn [option_map].
      destruct (Product.has_id pk r) eqn:E; [|reflexivity].
      apply has_id_iff in E. now elim Hid.
  - assert (Hn : ~ stored pk w).
    { intros Hst. destruct (find_stored pk w Hst) as [old [Hf _]]. congruence. }
    rewrite (update_missing pk body w Hn). repeat split; trivial.
Qed.

Lemma update_frame_witness :
  map Product.id
      (table (snd (ProductUsecase.update widget_id quantity_5 two_world)))
  = map Product.id (table two_world)
  /\ (forall i r,
        nth_error (table two_world) i = Some r ->
        Product.id r <> Some widget_id ->
        nth_error
          (table (snd (ProductUsecase.update widget_id quantity_5 two_world))) i
        = Some r)
  /\ draws (snd (ProductUsecase.update widget_id quantity_5 two_world))
     = draws two_world.
Proof.
  apply (update_frame widget_id quantity_5 two_world). reflexivity.
Defined.

(** ** What create and the reads leave alone *)

(** X6: for a payload whose numbers fit their columns, create either
    returns, having appended exactly the created row
    to a table that held neither its name nor its id, or raises
    [IntegrityError] with the table unchanged and nothing attached,
    because the name or the id was held; either way it has drawn one
    identifier and read the clock twice. *)
Theorem create_outcome :
  forall (body : ProductIn.t) (w : World),
    ProductIn.storable body ->
    session w = [] ->
    exists w',
      ((ProductUsecase.create body w
        = (Ok (ProductOut.from_orm (created_row body w)), w')
        /\ table w' = (table w ++ [created_row body w])%list
        /\ (forall p, In p (table w) -> Product.name p <> ProductIn.name body)
        /\ ~ stored (created_id w) w)
       \/ ((exists orig,
              ProductUsecase.create body w = (Raise (IntegrityError orig), w'))
           /\ table w' = table w
           /\ session w' = []
           /\ ((exists p, In p (table w)
                          /\ Product.name p = ProductIn.name body)
               \/ stored (created_id w) w)))
      /\ tick w' = S (S (tick w))
      /\ draws w' = S (draws w).
Proof.
  intros body w _ Hs. rewrite (create_run body w Hs).
  destruct (existsb (Product.has_id (created_id w)) (table w)) eqn:Epk.
  { eexists. split.
    - right. split; [eexists; reflexivity|]. repeat split.
      right. now apply stored_iff.
    - split; reflexivity. }
  destruct (existsb (fun r => String.eqb (Product.name r) (ProductIn.name body))
                    (table w)) eqn:En.
  { eexists. split.
    - right. split; [eexists; reflexivity|]. repeat split.
      left. now apply name_taken_iff.
    - split; reflexivity. }
  eexists. split.
  - left. split; [reflexivity|]. split; [reflexivity|].
    split; [now apply name_free_iff | now apply not_stored_iff].
  - split; reflexivity.
Qed.

Lemma create_outcome_witness :
  exists w',
    ((ProductUsecase.create widget two_world
      = (Ok (ProductOut.from_orm (created_row widget two_world)), w')
      /\ table w' = (table two_world ++ [created_row widget two_world])%list
      /\ (forall p, In p (table two_world) ->
                    Product.name p <> ProductIn.name widget)
      /\ ~ stored (created_id two_world) two_world)
     \/ ((exists orig,
            ProductUsecase.create widget two_world
            = (Raise (IntegrityError orig), w'))
         /\ table w' = table two_world
         /\ session w' = []
         /\ ((exists p, In p (table two_world)
                        /\ Product.name p = ProductIn.name widget)
             \/ stored (created_id two_world) two_world)))
    /\ tick w' = S (S (tick two_world))
    /\ draws w' = S (draws two_world).
Proof.
  apply (create_outcome widget two_world).
  - unfold ProductIn.storable, fits_Integer, fits_Numeric. cbn. lia.
  - reflexivity.
Defined.

(** X7: get changes neither the table nor the two cursors, and query
    leaves the whole world as it was, whether they return or raise. *)
Theorem reads_do_not_write :
  forall (pk : string) (name category : option string) (w : World),
    table (snd (ProductUsecase.get pk w)) = table w
    /\ tick (snd (ProductUsecase.get pk w)) = tick w
    /\ draws (snd (ProductUsecase.get pk w)) = draws w
    /\ snd (ProductUsecase.query name category w) = w.
Proof.
  intros pk name category w.
  assert (Hq : snd (ProductUsecase.query name category w) = w)
    by (destruct name as [[|c cs]|], category as [[|d ds]|]; reflexivity).
  destruct (find (Product.has_id pk) (table w)) as [old|] eqn:Hfind.
  - rewrite (get_run pk old w Hfind). now repeat split.
  - assert (Hn : ~ stored pk w).
    { intros Hst. destruct (find_stored pk w Hst) as [old [Hf _]]. congruence. }
    rewrite (get_missing pk w Hn). now repeat split.
Qed.



(** ** Keys stay unique *)

Lemma replaced_split (pk : string) (old new : Product.t)
      (rows : list Product.t) :
  NoDup (map Product.id rows) -> In old rows -> Product.id old = Some pk ->
  exists l1 l2,
    rows = (l1 ++ old :: l2)%list
    /\ map (fun r => if Product.has_id pk r then new else r) rows
       = (l1 ++ new :: l2)%list
    /\ forall r, In r (l1 ++ l2) -> Product.id r <> Some pk.
Proof.
  intros Hnd Hin Hold. apply in_split in Hin as [l1 [l2 ->]].
  exists l1, l2. split; [reflexivity|].
  rewrite map_app in Hnd. cbn [map] in Hnd.
  apply NoDup_remove_2 in Hnd. rewrite Hold, <- map_app in Hnd.
  assert (Hother : forall r, In r (l1 ++ l2) -> Product.id r <> Some pk).
  { intros r Hr Hid. apply Hnd. rewrite <- Hid. now apply in_map. }
  split; [|exact Hother].
  assert (Hfix : forall l, (forall r, In r l -> In r (l1 ++ l2)) ->
                           map (fun r => if Product.has_id pk r then new else r) l
                           = l).
  { intros l Hl. rewrite <- (map_id l) at 2. apply map_ext_in. intros r Hr.
    destruct (Product.has_id pk r) eqn:E; [|reflexivity].
    apply has_id_iff in E. now elim (Hother r (Hl r Hr)). }
  rewrite map_app. cbn [map].
  rewrite (proj2 (has_id_iff pk old) Hold).
  rewrite !Hfix; [reflexivity | |]; intros r Hr; apply in_app_iff; auto.
Qed.

Lemma names_replaced (pk : string) (old new : Product.t)
      (rows : list Product.t) :
  NoDup (map Product.id rows) -> NoDup (map Product.name rows) ->
  In old rows -> Product.id old = Some pk ->
  (Product.name new = Product.name old
   \/ others_named (Product.name new) old rows = false) ->
  NoDup (map Product.name
             (map (fun r => if Product.has_id pk r then new else r) rows)).
Proof.
  intros Hids Hnames Hin Hold Hname.
  destruct (replaced_split pk old new rows Hids Hin Hold)
    as [l1 [l2 [Hrows [Hmap Hother]]]].
  rewrite Hmap, map_app. cbn [map].
  rewrite Hrows, map_app in Hnames. cbn [map] in Hnames.
  apply NoDup_remove in Hnames as [Hnd Hnot].
  apply (NoDup_Add (Add_app (Product.name new) _ _)). split; [exact Hnd|].
  destruct Hname as [-> | Hfree]; [exact Hnot|].
  rewrite <- map_app. intros H. apply in_map_iff in H as [r [Hr Hinr]].
  assert (Ht : others_named (Product.name new) old rows = true).
  { apply (others_named_iff pk _ old rows Hold). exists r.
    split; [|split; [now apply Hother | exact Hr]].
    rewrite Hrows. apply in_app_iff. apply in_app_iff in Hinr as [?|?];
      [now left | right; now right]. }
  congruence.
Qed.

Lemma keys_unique_table (w w' : World) :
  table w' = table w -> keys_unique w -> keys_unique w'.
Proof. unfold keys_unique. now intros ->. Qed.

Lemma not_found_unstored (pk : string) (w : World) :
  find (Product.has_id pk) (table w) = None -> ~ stored pk w.
Proof.
  intros Hfind Hst. destruct (find_stored pk w Hst) as [old [Hf _]]. congruence.
Qed.

Lemma run_keys_unique (o : operation) (w : World) :
  keys_unique w -> keys_unique (run o w).
Proof.
  intros Hk. pose proof Hk as [Hids [Hnames Hlen]].
  destruct o as [body | pk body | pk]; unfold run.
  - rewrite (create_run body (with_session [] w) eq_refl).
    cbn [table with_session].
    destruct (existsb (Product.has_id (created_id (with_session [] w)))
                      (table w)) eqn:Epk;
      [now apply (keys_unique_table w)|].
    destruct (existsb (fun r => String.eqb (Product.name r) (ProductIn.name body))
                      (table w)) eqn:En;
      [now apply (keys_unique_table w)|].
    unfold keys_unique. cbn [snd table with_session session tick draws clock entropy].
    rewrite !map_app. cbn [map]. repeat split.
    + apply NoDup_snoc; [exact Hids|]. intros H.
      apply in_map_iff in H as [r [Hr Hinr]].
      assert (X : existsb (Product.has_id (created_id (with_session [] w)))
                          (table w) = true).
      { apply existsb_exists. exists r. split; [exact Hinr|].
        now apply has_id_iff. }
      congruence.
    + apply NoDup_snoc; [exact Hnames|]. intros H.
      apply in_map_iff in H as [r [Hr Hinr]].
      now apply (proj2 (name_free_iff _ _) En r Hinr).
    + intros p Hp. apply in_app_iff in Hp as [Hp | [<- | []]];
        [now apply Hlen|].
      eexists. split; [reflexivity | apply length_str_uuid].
  - destruct (find (Product.has_id pk) (table w)) as [old|] eqn:Hfind.
    + pose proof (find_some _ _ Hfind) as [Hin Hold].
      apply has_id_iff in Hold.
      destruct (update_cases pk body old (with_session [] w) eq_refl Hfind)
        as [new [t' [Hnew [H | [H | [H Hname]]]]]]; rewrite H;
        try (now apply (keys_unique_table w)).
      unfold keys_unique.
      cbn [snd table with_session session tick draws clock entropy] in *.
      repeat split.
      * now rewrite map_id_replaced.
      * now apply (names_replaced pk old).
      * intros p Hp. apply in_map_iff in Hp as [r [Hr Hinr]].
        destruct (Product.has_id pk r); [|subst p; now apply Hlen].
        subst p. destruct (Hlen old Hin) as [pk' [Hid Hl]].
        exists pk. split; [exact Hnew | congruence].
    + rewrite (update_missing pk body (with_session [] w)
                 (not_found_unstored pk _ Hfind)).
      now apply (keys_unique_table w).
  - destruct (find (Product.has_id pk) (table w)) as [old|] eqn:Hfind.
    + rewrite (delete_run pk old (with_session [] w) eq_refl Hfind).
      unfold keys_unique.
      cbn [snd table with_session session tick draws clock entropy].
      repeat split; try now apply NoDup_map_filter.
      intros p Hp. apply filter_In in Hp as [Hp _]. now apply Hlen.
    + rewrite (delete_missing pk (with_session [] w)
                 (not_found_unstored pk _ Hfind)).
      now apply (keys_unique_table w).
Qed.

(** X8: in every state reached from the empty store by create, update
    and delete, no two products share an id, no two share a name, and
    every id is a string of 36 characters. *)
Theorem reachable_keys_unique :
  forall (w0 w : World),
    table w0 = [] -> reachable w0 w ->
    NoDup (map Product.id (table w))
    /\ NoDup (map Product.name (table w))
    /\ forall p, In p (table w) ->
                 exists pk, Product.id p = Some pk /\ String.length pk = 36%nat.
Proof.
  intros w0 w Hempty Hreach. change (keys_unique w).
  induction Hreach as [|w o Hreach IH].
  - unfold keys_unique. rewrite Hempty.
    repeat split; try constructor. intros p [].
  - now apply run_keys_unique.
Qed.

Lemma reachable_keys_unique_witness :
  NoDup (map Product.id (table two_world))
  /\ NoDup (map Product.name (table two_world))
  /\ forall p, In p (table two_world) ->
               exists pk, Product.id p = Some pk /\ String.length pk = 36%nat.
Proof.
  apply (reachable_keys_unique empty_world two_world).
  - reflexivity.
  - change two_world
      with (run (op_create gadget) (run (op_create widget) empty_world)).
    apply reach_step, reach_step, reach_start.
Defined.

(** ** The name filter never misses *)







(** X10: two non-empty name filters that differ only in the case of
    their letters select the same products. *)
Theorem query_ignores_case :
  forall (n n' : string) (w : World),
    n <> EmptyString -> n' <> EmptyString ->
    lower n = lower n' ->
    ProductUsecase.query (Some n) None w = ProductUsecase.query (Some n') None w.
Proof.
  intros n n' w Hn Hn' Hl.
  now rewrite (query_name_like n w Hn), (query_name_like n' w Hn'), Hl.
Qed.

Lemma query_ignores_case_witness :
  ProductUsecase.query (Some "WiD") None two_world
  = ProductUsecase.query (Some "wId") None two_world.
Proof.
  apply (query_ignores_case "WiD" "wId" two_world);
    [discriminate | discriminate | reflexivity].
Defined.

(** ** Status codes *)

Lemma post_result (body : ProductIn.t) (w : World) :
  session w = [] ->
  (status_code (fst (route (POST body) w)) = 201%nat
   /\ table (snd (route (POST body) w)) = (table w ++ [created_row body w])%list)
  \/ (status_code (fst (route (POST body) w)) = 400%nat
      /\ table (snd (route (POST body) w)) = table w).
Proof.
  intros Hs. unfold route, respond, controllers.post, try_except.
  rewrite (create_run body w Hs).
  destruct (existsb (Product.has_id (created_id w)) (table w));
    [right; split; reflexivity|].
  destruct (existsb (fun r => String.eqb (Product.name r) (ProductIn.name body))
                    (table w));
    [right; split; reflexivity | left; split; reflexivity].
Qed.

Lemma get_result (pk : string) (w : World) :
  (status_code (fst (route (GET pk) w)) = 200%nat
   \/ status_code (fst (route (GET pk) w)) = 404%nat)
  /\ table (snd (route (GET pk) w)) = table w.
Proof.
  unfold route, respond, controllers.get, try_except.
  destruct (find (Product.has_id pk) (table w)) as [old|] eqn:Hfind.
  - rewrite (get_run pk old w Hfind). split; [now left | reflexivity].
  - rewrite (get_missing pk w (not_found_unstored pk w Hfind)).
    split; [now right | reflexivity].
Qed.

Lemma list_result (name category : option string) (w : World) :
  status_code (fst (route (GET_list name category) w))
  = (if truthy category then 500 else 200)%nat
  /\ snd (route (GET_list name category) w) = w.
Proof.
  unfold route, respond, controllers.query.
  destruct category as [[|c cs]|].
  - destruct (query_name_returns name w) as [rows [Hq _]].
    rewrite query_category_unset, Hq. split; reflexivity.
  - rewrite query_category_raises. split; reflexivity.
  - destruct (query_name_returns name w) as [rows [Hq _]].
    rewrite Hq. split; reflexivity.
Qed.

Lemma patch_result (pk : string) (body : ProductUpdate.t) (w : World) :
  session w = [] ->
  status_code (fst (route (PATCH pk body) w)) = 200%nat
  \/ (status_code (fst (route (PATCH pk body) w)) = 404%nat
      /\ table (snd (route (PATCH pk body) w)) = table w)
  \/ (status_code (fst (route (PATCH pk body) w)) = 400%nat
      /\ table (snd (route (PATCH pk body) w)) = table w).
Proof.
  intros Hs. unfold route, respond, controllers.patch, try_except.
  destruct (find (Product.has_id pk) (table w)) as [old|] eqn:Hfind.
  - destruct (update_cases pk body old w Hs Hfind)
      as [new [t' [Hnew [H | [H | [H _]]]]]]; rewrite H.
    + now left.
    + right. right. split; reflexivity.
    + now left.
  - rewrite (update_missing pk body w (not_found_unstored pk w Hfind)).
    right. left. split; reflexivity.
Qed.

Lemma delete_result (pk : string) (w : World) :
  session w = [] ->
  status_code (fst (route (DELETE pk) w)) = 204%nat
  \/ (status_code (fst (route (DELETE pk) w)) = 404%nat
      /\ table (snd (route (DELETE pk) w)) = table w).
Proof.
  intros Hs. unfold route, respond, controllers.delete, try_except.
  destruct (find (Product.has_id pk) (table w)) as [old|] eqn:Hfind.
  - rewrite (delete_run pk old w Hs Hfind). now left.
  - rewrite (delete_missing pk w (not_found_unstored pk w Hfind)).
    right. split; reflexivity.
Qed.

(** X12: a response with a status of 400 or above leaves the table as
    it was. *)
Theorem errors_do_not_write :
  forall (r : Request) (w : World),
    session w = [] ->
    (400 <= status_code (fst (route r w)))%nat ->
    table (snd (route r w)) = table w.
Proof.
  intros r w Hs Hge. destruct r as [body | pk | name category | pk body | pk].
  - destruct (post_result body w Hs) as [[H _] | [_ Ht]]; [|exact Ht].
    rewrite H in Hge. lia.
  - apply get_result.
  - destruct (list_result name category w) as [_ H]. now rewrite H.
  - destruct (patch_result pk body w Hs) as [H | [[_ Ht] | [_ Ht]]]; trivial.
    rewrite H in Hge. lia.
  - destruct (delete_result pk w Hs) as [H | [_ Ht]]; trivial.
    rewrite H in Hge. lia.
Qed.

Lemma errors_do_not_write_witness :
  table (snd (route (POST widget) two_world)) = table two_world.
Proof.
  apply (errors_do_not_write (POST widget) two_world).
  - reflexivity.
  - vm_compute. lia.
Defined.

(** ** Updates compose *)

Lemma option_eqb_eq {A} (eqb : A -> A -> bool) (x y : option A) :
  (forall a b, eqb a b = true -> a = b) ->
  option_eqb eqb x y = true -> x = y.
Proof.
  intros H. destruct x, y; simpl; try discriminate; [|reflexivity].
  intros E. now rewrite (H _ _ E).
Qed.

Lemma Product_eqb_eq (p q : Product.t) : Product.eqb p q = true -> p = q.
Proof.
  unfold Product.eqb. intros H.
  repeat (apply andb_true_iff in H as [H ?]).
  destruct p, q; cbn in *.
  f_equal.
  - apply (option_eqb_eq String.eqb); [|assumption].
    intros a b E. now apply String.eqb_eq.
  - now apply String.eqb_eq.
  - now apply Z.eqb_eq.
  - now apply Z.eqb_eq.
  - now apply Bool.eqb_prop.
  - apply (option_eqb_eq Z.eqb); [|assumption].
    intros a b E. now apply Z.eqb_eq.
  - apply (option_eqb_eq Z.eqb); [|assumption].
    intros a b E. now apply Z.eqb_eq.
Qed.

Lemma find_replaced_has_id (pk : string) (new : Product.t)
      (rows : list Product.t) (old : Product.t) :
  Product.id new = Some pk ->
  find (Product.has_id pk) rows = Some old ->
  find (Product.has_id pk)
       (map (fun r => if Product.same_id r old then new else r) rows)
  = Some new.
Proof. intros Hnew Hfind. now apply (find_replaced pk old). Qed.

(** What a returning update returns and stores, whatever the clock. *)
Lemma update_result :
  forall (pk : string) (body : ProductUpdate.t) (w w1 : World)
         (old : Product.t) (out : ProductUpdateOut.t),
    session w = [] ->
    find (Product.has_id pk) (table w) = Some old ->
    ProductUsecase.update pk body w = (Ok out, w1) ->
    exists k,
      (k = tick w \/ k = S (tick w))
      /\ out = ProductUpdateOut.from_orm
                 (Product.set_updated_at (Some (clock w k)) (patched body old))
      /\ find (Product.has_id pk) (table w1)
         = Some (Product.set_updated_at (Some (clock w k)) (patched body old))
      /\ clock w1 = clock w
      /\ (tick w < tick w1)%nat.
Proof.
  intros pk body w w1 old out Hs Hfind Hup.
  pose proof (find_some _ _ Hfind) as [_ Hold]. apply has_id_iff in Hold.
  rewrite (update_run pk body old w Hs Hfind) in Hup. cbv zeta in Hup.
  set (new := Product.set_updated_at (Some (clock w (tick w)))
                                     (patched body old)) in *.
  assert (Hnew : forall v, Product.id (Product.set_updated_at v new) = Some pk)
    by (intros v; destruct old; exact Hold).
  destruct (Product.eqb new old) eqn:E.
  - apply Product_eqb_eq in E. injection Hup as <- <-.
    exists (tick w). fold new. rewrite E.
    repeat split; trivial; [now left | cbn; lia].
  - destruct (option_eqb Z.eqb (Some (clock w (tick w)))
                         (Product.updated_at old));
      (destruct (negb _ && _); [discriminate Hup|]);
      injection Hup as <- <-; cbn [table clock tick].
    + exists (S (tick w)).
      assert (Hsame : Product.set_updated_at (Some (clock w (S (tick w)))) new
                      = Product.set_updated_at (Some (clock w (S (tick w))))
                                               (patched body old))
        by reflexivity.
      rewrite <- Hsame.
      repeat split; trivial; [now right | | lia].
      apply find_replaced_has_id; [apply Hnew | exact Hfind].
    + exists (tick w). fold new.
      repeat split; trivial; [now left | | lia].
      apply find_replaced_has_id; [|exact Hfind].
      destruct old; exact Hold.
Qed.

(** X14: whenever update of a stored product returns, what it returns
    and stores under the id is the stored product with the fields of
    the payload replaced and [updated_at] set to a reading of the clock
    taken during the update, the first or the second one. *)
Theorem update_returns_patched :
  forall (pk : string) (body : ProductUpdate.t) (w w1 : World)
         (old : Product.t) (out : ProductUpdateOut.t),
    session w = [] ->
    find (Product.has_id pk) (table w) = Some old ->
    ProductUsecase.update pk body w = (Ok out, w1) ->
    exists k,
      (k = tick w \/ k = S (tick w))
      /\ out = ProductUpdateOut.from_orm
                 (Product.set_updated_at (Some (clock w k)) (patched body old))
      /\ find (Product.has_id pk) (table w1)
         = Some (Product.set_updated_at (Some (clock w k)) (patched body old))
      /\ clock w1 = clock w
      /\ (tick w < tick w1)%nat.
Proof.
  intros pk body w w1 old out Hs Hfind Hup.
  exact (update_result pk body w w1 old out Hs Hfind Hup).
Qed.

Lemma update_returns_patched_witness :
  exists k,
    (k = tick two_world \/ k = S (tick two_world))
    /\ ProductUpdateOut.from_orm widget5_row
       = ProductUpdateOut.from_orm
           (Product.set_updated_at (Some (clock two_world k))
                                   (patched quantity_5 widget_row))
    /\ find (Product.has_id widget_id) (table widget5_world)
       = Some (Product.set_updated_at (Some (clock two_world k))
                                      (patched quantity_5 widget_row))
    /\ clock widget5_world = clock two_world
    /\ (tick two_world < tick widget5_world)%nat.
Proof.
  apply (update_returns_patched widget_id quantity_5 two_world widget5_world
                                widget_row).
  - reflexivity.
  - reflexivity.
  - reflexivity.
Defined.

Lemma patched_twice (b1 b2 : ProductUpdate.t) (v1 v2 : option datetime)
      (p : Product.t) :
  Product.set_updated_at v2 (patched b2 (Product.set_updated_at v1 (patched b1 p)))
  = Product.set_updated_at v2 (patched b2 (patched b1 p)).
Proof. reflexivity. Qed.

Lemma patched_idempotent (b : ProductUpdate.t) (p : Product.t) :
  patched b (patched b p) = patched b p.
Proof. destruct b as [[n|] [q|] [pr|] [s|]]; reflexivity. Qed.

(** X15: two updates of a product that both return compose: the second
    returns the product patched by the first payload and then by the
    second, stamped with a later reading; with the same payload twice
    the second returns the fields of the first, [updated_at] apart. *)
Theorem update_twice :
  forall (pk : string) (b1 b2 : ProductUpdate.t) (w w1 w2 : World)
         (old : Product.t) (out1 out2 : ProductUpdateOut.t),
    session w = [] ->
    find (Product.has_id pk) (table w) = Some old ->
    ProductUsecase.update pk b1 w = (Ok out1, w1) ->
    ProductUsecase.update pk b2 (with_session [] w1) = (Ok out2, w2) ->
    exists k,
      (tick w < k)%nat
      /\ out2 = ProductUpdateOut.from_orm
                  (Product.set_updated_at (Some (clock w k))
                                          (patched b2 (patched b1 old)))
      /\ (b2 = b1 ->
          ProductUpdateOut.name out2 = ProductUpdateOut.name out1
          /\ ProductUpdateOut.quantity out2 = ProductUpdateOut.quantity out1
          /\ ProductUpdateOut.price out2 = ProductUpdateOut.price out1
          /\ ProductUpdateOut.status out2 = ProductUpdateOut.status out1
          /\ ProductUpdateOut.id out2 = ProductUpdateOut.id out1
          /\ ProductUpdateOut.created_at out2 = ProductUpdateOut.created_at out1).
Proof.
  intros pk b1 b2 w w1 w2 old out1 out2 Hs Hfind H1 H2.
  destruct (update_result pk b1 w w1 old out1 Hs Hfind H1)
    as [k1 [Hk1 [Ho1 [Hf1 [Hc1 Ht1]]]]].
  destruct (update_result pk b2 (with_session [] w1) w2 _ out2
              eq_refl Hf1 H2)
    as [k2 [Hk2 [Ho2 _]]].
  cbn [with_session clock tick] in Hk2, Ho2. rewrite Hc1 in Ho2.
  rewrite patched_twice in Ho2.
  exists k2. split; [destruct Hk2; lia|]. split; [exact Ho2|].
  intros ->. rewrite Ho2, Ho1, patched_idempotent. now repeat split.
Qed.

Lemma update_twice_witness :
  exists k,
    (tick two_world < k)%nat
    /\ ProductUpdateOut.from_orm thing_row
       = ProductUpdateOut.from_orm
           (Product.set_updated_at (Some (clock two_world k))
              (patched rename_thing (patched quantity_5 widget_row)))
    /\ (rename_thing = quantity_5 ->
        ProductUpdateOut.name (ProductUpdateOut.from_orm thing_row)
        = ProductUpdateOut.name (ProductUpdateOut.from_orm widget5_row)
        /\ ProductUpdateOut.quantity (ProductUpdateOut.from_orm thing_row)
           = ProductUpdateOut.quantity (ProductUpdateOut.from_orm widget5_row)
        /\ ProductUpdateOut.price (ProductUpdateOut.from_orm thing_row)
           = ProductUpdateOut.price (ProductUpdateOut.from_orm widget5_row)
        /\ ProductUpdateOut.status (ProductUpdateOut.from_orm thing_row)
           = ProductUpdateOut.status (ProductUpdateOut.from_orm widget5_row)
        /\ ProductUpdateOut.id (ProductUpdateOut.from_orm thing_row)
           = ProductUpdateOut.id (ProductUpdateOut.from_orm widget5_row)
        /\ ProductUpdateOut.created_at (ProductUpdateOut.from_orm thing_row)
           = ProductUpdateOut.created_at
               (ProductUpdateOut.from_orm widget5_row)).
Proof.
  apply (update_twice widget_id quantity_5 rename_thing
                      two_world widget5_world thing_world widget_row).
  - reflexivity.
  - reflexivity.
  - reflexivity.
  - reflexivity.
Defined.

(** ** Rows under other ids *)

Lemma filter_replaced (pk : string) (new : Product.t) (rows : list Product.t) :
  Product.id new = Some pk ->
  filter (fun r => negb (Product.has_id pk r))
         (map (fun r => if Product.has_id pk r then new else r) rows)
  = filter (fun r => negb (Product.has_id pk r)) rows.
Proof.
  intros Hnew. apply has_id_iff in Hnew.
  induction rows as [|r rows IH]; [reflexivity|]. cbn [map filter].
  destruct (Product.has_id pk r) eqn:E.
  - rewrite Hnew. cbn [negb]. exact IH.
  - rewrite E. cbn [negb]. now rewrite IH.
Qed.

Lemma update_keeps_others (pk : string) (body : ProductUpdate.t) (w : World) :
  session w = [] ->
  filter (fun r => negb (Product.has_id pk r))
         (table (snd (ProductUsecase.update pk body w)))
  = filter (fun r => negb (Product.has_id pk r)) (table w).
Proof.
  intros Hs.
  destruct (find (Product.has_id pk) (table w)) as [old|] eqn:Hfind.
  - destruct (update_cases pk body old w Hs Hfind)
      as [new [t' [Hnew [H | [H | [H _]]]]]]; rewrite H; try reflexivity.
    cbn [snd table]. now apply filter_replaced.
  - now rewrite (update_missing pk body w (not_found_unstored pk w Hfind)).
Qed.


(** ** Partial updates *)

(** With a clock that has moved past the stored [updated_at], a
    returning update stamps the row with the reading it took itself. *)
Lemma update_fresh_reading (pk : string) (body : ProductUpdate.t)
      (w w1 : World) (old : Product.t) (out : ProductUpdateOut.t)
      (u0 : datetime) :
  session w = [] ->
  find (Product.has_id pk) (table w) = Some old ->
  Product.updated_at old = Some u0 ->
  (u0 < clock w (tick w))%Z ->
  ProductUsecase.update pk body w = (Ok out, w1) ->
  ProductUpdateOut.updated_at out = Some (clock w (tick w)).
Proof.
  intros Hs Hfind Hu Hlt Hup.
  rewrite (update_run pk body old w Hs Hfind) in Hup. cbv zeta in Hup.
  assert (Hneq : (clock w (tick w) =? u0)%Z = false) by (apply Z.eqb_neq; lia).
  assert (E1 : Product.eqb (Product.set_updated_at (Some (clock w (tick w)))
                                                   (patched body old)) old
               = false).
  { unfold Product.eqb. apply andb_false_intro2.
    cbn [Product.updated_at Product.set_updated_at]. rewrite Hu. exact Hneq. }
  rewrite E1, Hu in Hup. cbn [option_eqb] in Hup. rewrite Hneq in Hup.
  destruct (negb _ && _); [discriminate Hup|].
  injection Hup as <- _. reflexivity.
Qed.

Lemma update_in_place (pk : string) (body : ProductUpdate.t) (w : World) :
  session w = [] ->
  map Product.id (table (snd (ProductUsecase.update pk body w)))
  = map Product.id (table w)
  /\ (forall i r,
        nth_error (table w) i = Some r ->
        Product.id r <> Some pk ->
        nth_error (table (snd (ProductUsecase.update pk body w))) i = Some r).
Proof.
  intros Hs.
  destruct (find (Product.has_id pk) (table w)) as [old|] eqn:Hfind.
  - destruct (update_cases pk body old w Hs Hfind)
      as [new [t' [Hnew [H | [H | [H _]]]]]]; rewrite H; cbn [snd table];
      try (split; trivial).
    + now apply map_id_replaced.
    + intros i r Hi Hid. rewrite nth_error_map, Hi. cbn [option_map].
      destruct (Product.has_id pk r) eqn:E; [|reflexivity].
      apply has_id_iff in E. now elim Hid.
  - rewrite (update_missing pk body w (not_found_unstored pk w Hfind)).
    split; trivial.
Qed.

(** C2, as amended: for a stored product and a partial payload, with
    numbers that fit their columns, that does not rename it to a name
    held by another product, update returns and stores the product with
    exactly the fields of the payload replaced, the omitted fields,
    [id] and [created_at] as they were, and [updated_at] set to a
    reading of the clock taken during the update; that reading is the
    one the update took first and is strictly greater than the former
    [updated_at] when the clock has moved past it.  The primary keys of
    the table and every row under another id stay in place.  A payload
    that renames the product to a name held by another product is
    rejected with [IntegrityError] and the table is left as it was. *)
Theorem update_partial :
  forall (pk : string) (body : ProductUpdate.t) (w : World) (old : Product.t),
    session w = [] ->
    find (Product.has_id pk) (table w) = Some old ->
    ProductUpdate.storable body ->
    (~ renames_to_taken pk body old w ->
     exists out w' new k,
       ProductUsecase.update pk body w = (Ok out, w')
       /\ out = ProductUpdateOut.from_orm new
       /\ Product.name new = match ProductUpdate.name body with
                             | Some v => v | None => Product.name old end
       /\ Product.quantity new = match ProductUpdate.quantity body with
                                 | Some v => v | None => Product.quantity old end
       /\ Product.price new = match ProductUpdate.price body with
                              | Some v => v | None => Product.price old end
       /\ Product.status new = match ProductUpdate.status body with
                               | Some v => v | None => Product.status old end
       /\ Product.id new = Product.id old
       /\ Product.created_at new = Product.created_at old
       /\ (k = tick w \/ k = S (tick w))
       /\ Product.updated_at new = Some (clock w k)
       /\ (forall u0, Product.updated_at old = Some u0 ->
                      (u0 < clock w (tick w))%Z ->
                      clock w k = clock w (tick w) /\ (u0 < clock w k)%Z)
       /\ find (Product.has_id pk) (table w') = Some new
       /\ map Product.id (table w') = map Product.id (table w)
       /\ (forall i r, nth_error (table w) i = Some r ->
                       Product.id r <> Some pk ->
                       nth_error (table w') i = Some r))
    /\ (renames_to_taken pk body old w ->
        exists w',
          ProductUsecase.update pk body w
          = (Raise (IntegrityError "UNIQUE constraint failed: products.name"),
             w')
          /\ table w' = table w).
Proof.
  intros pk body w old Hs Hfind _. split.
  - intros Hfree.
    destruct (proj2 (update_raises_iff pk body w old Hs Hfind) Hfree)
      as [out [w' Hup]].
    destruct (update_result pk body w w' old out Hs Hfind Hup)
      as [k [Hk [Hout [Hf _]]]].
    destruct (update_in_place pk body w Hs) as [Hids Hrows].
    rewrite Hup in Hids, Hrows. cbn [snd] in Hids, Hrows.
    exists out, w',
      (Product.set_updated_at (Some (clock w k)) (patched body old)), k.
    split; [exact Hup|]. split; [exact Hout|].
    do 6 (split; [reflexivity|]).
    split; [exact Hk|]. split; [reflexivity|].
    split; [|now repeat split].
    intros u0 Hu Hlt.
    pose proof (update_fresh_reading pk body w w' old out u0 Hs Hfind Hu Hlt Hup)
      as Hfresh.
    rewrite Hout in Hfresh. cbn in Hfresh. injection Hfresh as Hfresh.
    split; [exact Hfresh | now rewrite Hfresh].
  - intros Htaken.
    destruct (proj1 (update_raises_iff pk body w old Hs Hfind) Htaken)
      as [w' [Hup [Ht _]]].
    now exists w'.
Qed.

Lemma update_partial_witness :
  (exists out w' new k,
      ProductUsecase.update widget_id quantity_5 two_world = (Ok out, w')
      /\ out = ProductUpdateOut.from_orm new
      /\ Product.name new = "Widget"
      /\ Product.quantity new = 5%Z
      /\ Product.price new = 999%Z
      /\ Product.status new = true
      /\ Product.id new = Some widget_id
      /\ Product.created_at new = Some 1000%Z
      /\ (k = 4%nat \/ k = 5%nat)
      /\ Product.updated_at new = Some (sample_clock k)
      /\ (forall u0, Some 1001%Z = Some u0 ->
                     (u0 < 1004)%Z ->
                     sample_clock k = 1004%Z /\ (u0 < sample_clock k)%Z)
      /\ find (Product.has_id widget_id) (table w') = Some new
      /\ map Product.id (table w') = [Some widget_id; Some gadget_id]
      /\ (forall i r, nth_error [widget_row; gadget_row] i = Some r ->
                      Product.id r <> Some widget_id ->
                      nth_error (table w') i = Some r))
  /\ (exists w',
         ProductUsecase.update gadget_id
           (ProductUpdate.mk (Some "Widget") None None None) two_world
         = (Raise (IntegrityError "UNIQUE constraint failed: products.name"),
            w')
         /\ table w' = [widget_row; gadget_row]).
Proof.
  split.
  - refine (proj1 (update_partial widget_id quantity_5 two_world widget_row
                     eq_refl eq_refl _) _).
    + split; [|intros p H; discriminate H].
      intros q H. injection H as <-. unfold fits_Integer. cbn. lia.
    + intros [n [r [Hb _]]]. discriminate Hb.
  - refine (proj2 (update_partial gadget_id
                     (ProductUpdate.mk (Some "Widget") None None None)
                     two_world gadget_row eq_refl eq_refl _) _).
    + split; intros x H; discriminate H.
    + exists "Widget", widget_row. repeat split; try discriminate.
      simpl. now left.
Defined.

(** ** Identity and creation time are kept *)

Lemma effect_frame_keys (w : World) (o : operation) (rows' : list Product.t)
      (p : Product.t) :
  NoDup (map Product.id (table w)) -> effect w o rows' -> In p (table w) ->
  (forall q, In q rows' -> Product.id q = Product.id p ->
             Product.created_at q = Product.created_at p)
  /\ ((forall pk, o = op_delete pk -> Product.id p <> Some pk) ->
      exists q, In q rows' /\ Product.id q = Product.id p
                /\ Product.created_at q = Product.created_at p).
Proof.
  intros Hnd Heff Hp.
  assert (Hsame : forall q, In q (table w) -> Product.id q = Product.id p ->
                            q = p)
    by (intros q Hq E; now apply (NoDup_map_inj Product.id (table w))).
  destruct Heff as
      [o | body row pk Hid Hfresh Hc Hu
       | pk body old new k Hin Hold Hnew Hc Hu Hk | pk].
  - split.
    + intros q Hq E. now rewrite (Hsame q Hq E).
    + intros _. now exists p.
  - split.
    + intros q Hq E. apply in_app_iff in Hq as [Hq | [<- | []]].
      * now rewrite (Hsame q Hq E).
      * elim Hfresh. exists p. split; [exact Hp | congruence].
    + intros _. exists p. split; [|now split]. apply in_app_iff. now left.
  - assert (Hold_p : Product.has_id pk p = true -> old = p).
    { intros Ep. apply has_id_iff in Ep.
      apply Hsame; [exact Hin | congruence]. }
    split.
    + intros q Hq E. apply in_map_iff in Hq as [r [Hr Hinr]]. subst q.
      destruct (Product.has_id pk r) eqn:Er.
      * apply has_id_iff in Er.
        assert (old = p) by (apply Hsame; [exact Hin | congruence]).
        now subst old.
      * now rewrite (Hsame r Hinr E).
    + intros _. exists (if Product.has_id pk p then new else p).
      split; [apply in_map_iff; now exists p|].
      destruct (Product.has_id pk p) eqn:Ep; [|now split].
      rewrite <- (Hold_p eq_refl). split; congruence.
  - split.
    + intros q Hq E. apply filter_In in Hq as [Hq _]. now rewrite (Hsame q Hq E).
    + intros Hnot. exists p. split; [|now split].
      apply filter_In. split; [exact Hp|].
      apply negb_true_iff. destruct (Product.has_id pk p) eqn:Ep; [|reflexivity].
      apply has_id_iff in Ep. now elim (Hnot pk eq_refl).
Qed.

Lemma reachable_keys (w0 w : World) :
  table w0 = [] -> reachable w0 w -> keys_unique w.
Proof.
  intros Hempty Hreach. induction Hreach as [|w o Hreach IH].
  - unfold keys_unique. rewrite Hempty.
    repeat split; try constructor. intros p [].
  - now apply run_keys_unique.
Qed.

(** C8, as amended: in every state reached from the empty store by
    create, update and delete, whatever operation comes next, a row
    found afterwards under the id of a stored product has the
    [created_at] of that product, and the product is still there under
    its id unless the operation deleted it; and on a clock whose
    readings never decrease every stored product has
    [updated_at >= created_at]. *)
Theorem timestamps_invariant :
  forall (w0 w : World),
    table w0 = [] -> reachable w0 w ->
    (monotone (clock w0) ->
     forall p, In p (table w) -> timestamps_ordered p)
    /\ (forall o p, In p (table w) ->
          (forall q, In q (table (run o w)) -> Product.id q = Product.id p ->
                     Product.created_at q = Product.created_at p)
          /\ ((forall pk, o = op_delete pk -> Product.id p <> Some pk) ->
              exists q, In q (table (run o w)) /\ Product.id q = Product.id p
                        /\ Product.created_at q = Product.created_at p)).
Proof.
  intros w0 w Hempty Hreach. split.
  - intros Hmono p Hp.
    destruct (reachable_invariant w0 w Hempty Hmono Hreach) as [[_ Hrows] _].
    destruct (Hrows p Hp) as [pk [c [u [H1 [H2 [H3 [H4 H5]]]]]]].
    exists c, u. now repeat split.
  - intros o p Hp.
    destruct (reachable_keys w0 w Hempty Hreach) as [Hnd _].
    destruct (run_effect o w) as [Heff _].
    now apply (effect_frame_keys w o).
Qed.

Lemma timestamps_invariant_witness :
  (monotone (clock empty_world) ->
   forall p, In p (table two_world) -> timestamps_ordered p)
  /\ (forall o p, In p (table two_world) ->
        (forall q, In q (table (run o two_world)) ->
                   Product.id q = Product.id p ->
                   Product.created_at q = Product.created_at p)
        /\ ((forall pk, o = op_delete pk -> Product.id p <> Some pk) ->
            exists q, In q (table (run o two_world))
                      /\ Product.id q = Product.id p
                      /\ Product.created_at q = Product.created_at p)).
Proof.
  apply (timestamps_invariant empty_world two_world).
  - reflexivity.
  - change two_world
      with (run (op_create gadget) (run (op_create widget) empty_world)).
    apply reach_step, reach_step, reach_start.
Defined.

(** C8, as stated, fails on a clock that steps back: the two timestamp
    defaults of a create read 1000 and then 999, and the stored product
    has [updated_at] before [created_at]. *)
Lemma timestamps_on_backward_clock :
  table backward_world = []
  /\ reachable backward_world (run (op_create widget) backward_world)
  /\ exists p,
      In p (table (run (op_create widget) backward_world))
      /\ Product.created_at p = Some 1000%Z
      /\ Product.updated_at p = Some 999%Z
      /\ ~ timestamps_ordered p.
Proof.
  split; [reflexivity|]. split; [apply reach_step, reach_start|].
  exists (Product.mk (Some widget_id) "Widget" 10 999%Z true
                     (Some 1000%Z) (Some 999%Z)).
  split; [vm_compute; now left|]. split; [reflexivity|]. split; [reflexivity|].
  intros [c [u [Hc [Hu Hle]]]]. cbn in Hc, Hu.
  injection Hc as <-. injection Hu as <-. lia.
Qed.

(** ** The life of a product *)

(** X16: for a payload with a name and a drawn id that are not stored,
    and numbers that fit their columns, the usecases carry the product
    through its life, each call in a session of its own: create
    returns it, get on its id returns the same representation, update
    of the quantity returns the new quantity with the other fields,
    [id] and [created_at] as created, delete returns, get then raises
    [NotFoundException], and the table is the one before the create. *)
Theorem product_lifecycle :
  forall (body : ProductIn.t) (q : Z) (w : World),
    ProductIn.storable body -> fits_Integer q ->
    session w = [] ->
    (forall p, In p (table w) -> Product.name p <> ProductIn.name body) ->
    ~ stored (created_id w) w ->
    exists created updated w1 w1' w2 w3,
      ProductUsecase.create body w = (Ok created, w1)
      /\ ProductOut.id created = Some (created_id w)
      /\ ProductUsecase.get (created_id w) (with_session [] w1)
         = (Ok created, w1')
      /\ ProductUsecase.update (created_id w)
           (ProductUpdate.mk None (Some q) None None) (with_session [] w1)
         = (Ok updated, w2)
      /\ ProductUpdateOut.quantity updated = q
      /\ ProductUpdateOut.id updated = ProductOut.id created
      /\ ProductUpdateOut.name updated = ProductOut.name created
      /\ ProductUpdateOut.price updated = ProductOut.price created
      /\ ProductUpdateOut.status updated = ProductOut.status created
      /\ ProductUpdateOut.created_at updated = ProductOut.created_at created
      /\ ProductUsecase.delete (created_id w) (with_session [] w2) = (Ok tt, w3)
      /\ ProductUsecase.get (created_id w) w3
         = (Raise (NotFoundException (not_found_message (created_id w))), w3)
      /\ table w3 = table w.
Proof.
  intros body q w _ _ Hs Hname Hid.
  set (pk := created_id w). set (row := created_row body w).
  set (b := ProductUpdate.mk None (Some q) None None).
  set (w1 := mk_world (table w ++ [row]) [mk_instance row (Some row) false]
                      (S (S (tick w))) (S (draws w)) (clock w) (entropy w)).
  assert (Hf1 : find (Product.has_id pk) (table (with_session [] w1)) = Some row)
    by (now apply find_created).
  assert (Hnot : ~ renames_to_taken pk b row (with_session [] w1))
    by (intros [n [r [Hb _]]]; discriminate Hb).
  destruct (proj2 (update_raises_iff pk b (with_session [] w1) row eq_refl Hf1)
                  Hnot) as [out [w2 Hup]].
  destruct (update_result pk b (with_session [] w1) w2 row out eq_refl Hf1 Hup)
    as [k [_ [Hout [Hf2 _]]]].
  pose proof (update_keeps_others pk b (with_session [] w1) eq_refl) as Hkeep.
  rewrite Hup in Hkeep. cbn [snd] in Hkeep.
  set (w3 := mk_world (filter (fun r => negb (Product.has_id pk r)) (table w2))
                      [] (tick w2) (draws w2) (clock w2) (entropy w2)).
  assert (Ht3 : table w3 = table w).
  { cbn [w3 table]. rewrite Hkeep. now apply filter_created. }
  assert (Hgone : ~ stored pk w3).
  { intros [p [Hp Hpid]]. rewrite Ht3 in Hp. apply Hid. now exists p. }
  exists (ProductOut.from_orm row), out, w1.
  eexists. exists w2, w3.
  split; [now apply create_ok|]. split; [reflexivity|].
  split; [now apply (get_run pk row)|].
  split; [exact Hup|].
  rewrite Hout.
  do 6 (split; [reflexivity|]).
  split; [now apply (delete_run pk _ (with_session [] w2) eq_refl Hf2)|].
  split; [now apply get_missing | exact Ht3].
Qed.

Lemma product_lifecycle_witness :
  exists created updated w1 w1' w2 w3,
    ProductUsecase.create gadget widget_world = (Ok created, w1)
    /\ ProductOut.id created = Some gadget_id
    /\ ProductUsecase.get gadget_id (with_session [] w1) = (Ok created, w1')
    /\ ProductUsecase.update gadget_id
         (ProductUpdate.mk None (Some 7%Z) None None) (with_session [] w1)
       = (Ok updated, w2)
    /\ ProductUpdateOut.quantity updated = 7%Z
    /\ ProductUpdateOut.id updated = ProductOut.id created
    /\ ProductUpdateOut.name updated = ProductOut.name created
    /\ ProductUpdateOut.price updated = ProductOut.price created
    /\ ProductUpdateOut.status updated = ProductOut.status created
    /\ ProductUpdateOut.created_at updated = ProductOut.created_at created
    /\ ProductUsecase.delete gadget_id (with_session [] w2) = (Ok tt, w3)
    /\ ProductUsecase.get gadget_id w3
       = (Raise (NotFoundException (not_found_message gadget_id)), w3)
    /\ table w3 = table widget_world.
Proof.
  apply (product_lifecycle gadget 7%Z widget_world).
  - unfold ProductIn.storable, fits_Integer, fits_Numeric. cbn. lia.
  - unfold fits_Integer. cbn. lia.
  - reflexivity.
  - apply name_free_iff. reflexivity.
  - apply not_stored_iff. reflexivity.
Defined.
